(** * Verification of the [python_scripts_to_commands] utilities

    Two scripts are covered:
    - [seeker.py], the recursive file finder; only [sanitize_extension] carries
      a property of interest;
    - [wing.py], the concurrent website status checker: a batch of URLs is
      loaded from a file, put on a [queue.Queue], and drained by four worker
      threads running [get_status].

    The checker is embedded as an interleaving semantics.  Every statement of
    [get_status] and [check_website_status] that touches shared state is one
    atomic step of the thread that executes it; a schedule chooses which
    thread runs next and, for a worker about to issue its request, what the
    network answers.  A schedule that picks a thread which cannot move (it
    has terminated, or it waits in [q.get()], [url_queue.join()] or
    [thread.join()]) has no run.

    What is taken from the libraries rather than from the scripts:
    - the operations of [queue.Queue] ([put], [empty], [get], [task_done],
      [join]) are atomic, since the library runs each under the queue's mutex;
    - [requests.get] returns a response or raises a subclass of [Exception];
      the five second timeout shows only as the [Timeout] it may raise;
    - [write] and [flush] on the standard streams do not raise, and a line
      is written as a whole;
    - [open] raises an [OSError], or the file opens; iterating over an open
      file yields its lines as text and may raise before the end. *)

From Stdlib Require Import ZArith NArith Lia Ascii String DecimalString.
From stdpp Require Import base list strings.

(** ** Python strings

    Two representations of a Python [str] are used.
    - The text read from the URL file is a list of Unicode code points, the
      type [list N]: this is what [str.strip] looks at, and [isspace] is
      Python's [str.isspace] of one code point, on all of Unicode.
    - The strings the programs build and pass around (URLs in the queue,
      output lines, extensions, paths) are values of [string], read as the
      bytes of the UTF-8 encoding; [utf8] takes the first representation to
      the second. *)

Module PyStr.

(** [str.isspace] of one code point, as CPython's [_PyUnicode_IsWhitespace]
    lists them: U+0009 to U+000D, U+001C to U+0020, U+0085, U+00A0, U+1680,
    U+2000 to U+200A, U+2028, U+2029, U+202F, U+205F and U+3000. *)
Definition isspace (c : N) : bool :=
  ((0x0009 <=? c) && (c <=? 0x000D) || (0x001C <=? c) && (c <=? 0x0020)
   || (c =? 0x0085) || (c =? 0x00A0) || (c =? 0x1680)
   || (0x2000 <=? c) && (c <=? 0x200A)
   || (c =? 0x2028) || (c =? 0x2029) || (c =? 0x202F) || (c =? 0x205F)
   || (c =? 0x3000))%N.

(** Drop the leading whitespace of a text. *)
Fixpoint lstrip_space (t : list N) : list N :=
  match t with
  | [] => []
  | c :: rest => if isspace c then lstrip_space rest else t
  end.

(** Drop the trailing whitespace of a text. *)
Fixpoint rstrip_space (t : list N) : list N :=
  match t with
  | [] => []
  | c :: rest =>
      match rstrip_space rest with
      | [] => if isspace c then [] else [c]
      | d :: kept => c :: d :: kept
      end
  end.

(** [line.strip()]: whitespace off both ends. *)
Definition strip (line : list N) : list N :=
  rstrip_space (lstrip_space line).

(** The code points of a string of ASCII characters. *)
Definition codes (s : string) : list N :=
  N_of_ascii <$> list_ascii_of_string s.

(** The UTF-8 encoding of one code point: one byte below U+0080, two below
    U+0800, three below U+10000, four from there on. *)
Definition utf8_char (c : N) : string :=
  let byte (n : N) (rest : string) := String (ascii_of_N n) rest in
  (if c <? 0x80 then byte c EmptyString
   else if c <? 0x800 then
     byte (0xC0 + c / 0x40) (byte (0x80 + c mod 0x40) EmptyString)
   else if c <? 0x10000 then
     byte (0xE0 + c / 0x1000)
       (byte (0x80 + (c / 0x40) mod 0x40) (byte (0x80 + c mod 0x40) EmptyString))
   else
     byte (0xF0 + c / 0x40000)
       (byte (0x80 + (c / 0x1000) mod 0x40)
          (byte (0x80 + (c / 0x40) mod 0x40)
             (byte (0x80 + c mod 0x40) EmptyString))))%N.

(** The UTF-8 encoding of a text. *)
Fixpoint utf8 (t : list N) : string :=
  match t with
  | [] => EmptyString
  | c :: rest => String.append (utf8_char c) (utf8 rest)
  end.

(** [chars] used as a set of characters, as in [s.lstrip(chars)]. *)
Fixpoint mem (c : ascii) (chars : string) : bool :=
  match chars with
  | EmptyString => false
  | String d rest => if Ascii.eqb c d then true else mem c rest
  end.

(** Drop the longest prefix whose characters satisfy [p]. *)
Fixpoint lstrip_by (p : ascii -> bool) (s : string) : string :=
  match s with
  | EmptyString => EmptyString
  | String c rest => if p c then lstrip_by p rest else s
  end.

(** [s.lstrip(chars)] *)
Definition lstrip (chars : string) (s : string) : string :=
  lstrip_by (fun c => mem c chars) s.

(** Every character of [s] satisfies [p]. *)
Fixpoint all_chars (p : ascii -> bool) (s : string) : bool :=
  match s with
  | EmptyString => true
  | String c rest => p c && all_chars p rest
  end.

Definition first_char (s : string) : option ascii :=
  match s with
  | EmptyString => None
  | String c _ => Some c
  end.

(** [c * n] for a one-character string. *)
Fixpoint replicate_char (n : nat) (c : ascii) : string :=
  match n with
  | O => EmptyString
  | S k => String c (replicate_char k c)
  end.

Definition newline : string := String (ascii_of_nat 10) EmptyString.

End PyStr.

(** ** [seeker.py] *)

Module Seeker.

(** [return extension.lstrip(".")] *)
Definition sanitize_extension (extension : string) : string :=
  PyStr.lstrip "." extension.

End Seeker.

(** ** [wing.py] *)

(** *** The library objects the script uses *)

(** [queue.Queue]: the deque of pending items and the counter of items that
    were put and not yet acknowledged by [task_done]. *)
Module PyQueue.

Record t := Make { queue : list string; unfinished_tasks : Z }.

(** [queue.Queue()] *)
Definition new : t := Make [] 0.

(** [q.put(item)] on an unbounded queue: append, count the item. *)
Definition put (item : string) (q : t) : t :=
  Make (queue q ++ [item]) (unfinished_tasks q + 1).

(** [q.empty()] *)
Definition empty (q : t) : bool :=
  match queue q with
  | [] => true
  | _ :: _ => false
  end.

(** [q.get()], blocking and without timeout: [None] when the caller has to
    wait because nothing is queued, else the head and the queue without it. *)
Definition get (q : t) : option (string * t) :=
  match queue q with
  | [] => None
  | item :: rest => Some (item, Make rest (unfinished_tasks q))
  end.

(** [q.task_done()]: [None] stands for the [ValueError] raised when it is
    called more often than there were items. *)
Definition task_done (q : t) : option t :=
  let unfinished := (unfinished_tasks q - 1)%Z in
  if (unfinished <? 0)%Z then None else Some (Make (queue q) unfinished).

(** [q.join()] returns once the counter is zero, and waits until then. *)
Definition join_returns (q : t) : bool := (unfinished_tasks q =? 0)%Z.

End PyQueue.

Module Wing.

(** Failures of [open(filename, 'r')]: the subclasses of [OSError] that name
    the usual causes, and any other [OSError]. *)
Inductive os_error :=
| FileNotFoundError | PermissionError | IsADirectoryError | OtherOSError.

(** Failures of reading a file that did open: bytes that do not decode in
    the file's encoding, or an error of the device. *)
Inductive read_error := UnicodeDecodeError | ReadOSError.

(** What [open(filename, 'r')] and the iteration over the file do: [open]
    raises; or the file opens and the iteration raises after it has yielded
    some lines; or the iteration yields the lines of the file, each a text
    with its terminator, and stops. *)
Inductive file_outcome :=
| OpenRaises (e : os_error)
| ReadRaises (yielded : list (list N)) (e : read_error)
| Yields (file : list (list N)).

(** The files the process can see. *)
Definition filesystem := string -> file_outcome.

(** The exceptions that leave [load_urls_from_file]. *)
Inductive load_exception :=
| OpenFailed (e : os_error)
| ReadFailed (e : read_error).

(** Exceptions that [requests.get] and [raise_for_status] raise; all of them
    derive from [Exception]. *)
Inductive exn :=
| HTTPError | Timeout | ConnectionError | MissingSchema | InvalidURL
| OtherException.

(** What [requests.get(url, timeout=5)] does: return a response with a status
    code, or raise. *)
Inductive get_result :=
| Response (status_code : Z)
| Raises (e : exn).

(** [response.raise_for_status()]: client errors are 400 to 499, server
    errors 500 to 599. *)
Definition raise_for_status (status_code : Z) : option exn :=
  if ((400 <=? status_code) && (status_code <? 600))%Z
  then Some HTTPError else None.

Inductive stream := Stdout | Stderr.

(** *** [load_urls_from_file] and [get_queue] *)

(** [with open(filename, 'r') as file: return [line.strip() for line in file]].
    An exception raised while the comprehension runs leaves the function;
    the lines stripped so far are lost with it. *)
Definition load_urls_from_file (fs : filesystem) (filename : string)
  : load_exception + list (list N) :=
  match fs filename with
  | OpenRaises e => inl (OpenFailed e)
  | ReadRaises _ e => inl (ReadFailed e)
  | Yields file => inr (PyStr.strip <$> file)
  end.

(** [url_queue = queue.Queue(); for url in urls: url_queue.put(url)] *)
Definition get_queue (urls : list string) : PyQueue.t :=
  fold_left (fun url_queue url => PyQueue.put url url_queue) urls PyQueue.new.

(** *** [get_status], statement by statement *)

(** The exception, if any, that leaves the [try] block. *)
Definition try_block (net : get_result) : option exn :=
  match net with
  | Raises e => Some e
  | Response status_code => raise_for_status status_code
  end.

Inductive clause := ExceptHTTPError | ExceptException | Else.

Definition isinstance_HTTPError (e : exn) : bool :=
  match e with
  | HTTPError => true
  | _ => false
  end.

(** The clause of the [try] statement that runs: the first [except] whose
    class matches, or [else] when nothing was raised. *)
Definition select_clause (raised : option exn) : clause :=
  match raised with
  | None => Else
  | Some e => if isinstance_HTTPError e then ExceptHTTPError else ExceptException
  end.

(** The [write] of each clause: the stream and the text. *)
Definition clause_write (c : clause) (url : string) : stream * string :=
  match c with
  | ExceptHTTPError => (Stderr, "HTTP error occurred for " +:+ url +:+ PyStr.newline)
  | ExceptException => (Stderr, "Error occurred for " +:+ url +:+ PyStr.newline)
  | Else => (Stdout, "Successfully connected to " +:+ url +:+ PyStr.newline)
  end.

(** Where a worker thread stands in [get_status]; the local [url] is kept
    while it is bound. *)
Inductive worker_pc :=
| AtWhile                              (* while not q.empty(): *)
| AtGet                                (*     url = q.get() *)
| AtTry (url : string)                 (*     try: get, raise_for_status *)
| AtHandler (url : string) (c : clause) (*    except / except / else *)
| AtFinally (url : string)             (*     finally: q.task_done() *)
| Finished                             (* returned from get_status *)
| Died.                                (* an exception left get_status *)

(** Where the main thread stands in [check_website_status]. *)
Inductive main_pc :=
| Starting (n : nat)    (* for _ in range(4): n threads started so far *)
| AtQueueJoin           (* url_queue.join() *)
| Joining (n : nat)     (* for thread in threads: n threads joined so far *)
| Returned.

Record state := State {
  st_queue : PyQueue.t;                 (* the shared url_queue *)
  st_threads : list worker_pc;          (* threads, in the order started *)
  st_main : main_pc;
  st_out : list (stream * string)       (* the writes, oldest first *)
}.

(** What a step does, as seen from outside. *)
Inductive event :=
| EvStart (i : nat)
| EvRangeDone
| EvQueueJoined
| EvThreadJoined (i : nat)
| EvReturn
| EvEmpty (i : nat) (b : bool)
| EvGet (i : nat) (url : string)
| EvRequest (i : nat) (url : string) (net : get_result)
| EvWrite (i : nat) (c : clause) (url : string)
| EvTaskDone (i : nat)
| EvValueError (i : nat).

(** One scheduling decision: the main thread, or worker [i]; [net] is the
    network's answer and is consulted only when the worker is at its request. *)
Inductive action :=
| RunMain
| RunWorker (i : nat) (net : get_result).

Definition is_alive (pc : worker_pc) : bool :=
  match pc with
  | Finished | Died => false
  | _ => true
  end.

(** One step of worker [i]; [None] when the thread does not exist, has
    terminated, or is blocked in [q.get()]. *)
Definition get_status (s : state) (i : nat) (net : get_result)
  : option (event * state) :=
  let q := st_queue s in
  let pcs := st_threads s in
  pc ← pcs !! i;
  match pc with
  | AtWhile =>
      if PyQueue.empty q
      then Some (EvEmpty i true, State q (<[i:=Finished]> pcs) (st_main s) (st_out s))
      else Some (EvEmpty i false, State q (<[i:=AtGet]> pcs) (st_main s) (st_out s))
  | AtGet =>
      match PyQueue.get q with
      | None => None
      | Some (url, q') =>
          Some (EvGet i url, State q' (<[i:=AtTry url]> pcs) (st_main s) (st_out s))
      end
  | AtTry url =>
      let c := select_clause (try_block net) in
      Some (EvRequest i url net,
            State q (<[i:=AtHandler url c]> pcs) (st_main s) (st_out s))
  | AtHandler url c =>
      Some (EvWrite i c url,
            State q (<[i:=AtFinally url]> pcs) (st_main s)
                  (st_out s ++ [clause_write c url]))
  | AtFinally url =>
      match PyQueue.task_done q with
      | None =>
          Some (EvValueError i, State q (<[i:=Died]> pcs) (st_main s) (st_out s))
      | Some q' =>
          Some (EvTaskDone i, State q' (<[i:=AtWhile]> pcs) (st_main s) (st_out s))
      end
  | Finished | Died => None
  end.

(** One step of the main thread in [check_website_status]; [None] when it
    waits in [url_queue.join()] or [thread.join()], or has returned. *)
Definition check_website_status (s : state) : option (event * state) :=
  let q := st_queue s in
  let pcs := st_threads s in
  match st_main s with
  | Starting n =>
      if Nat.ltb n 4
      then Some (EvStart (length pcs),
                 State q (pcs ++ [AtWhile]) (Starting (S n)) (st_out s))
      else Some (EvRangeDone, State q pcs AtQueueJoin (st_out s))
  | AtQueueJoin =>
      if PyQueue.join_returns q
      then Some (EvQueueJoined, State q pcs (Joining 0) (st_out s))
      else None
  | Joining n =>
      match pcs !! n with
      | None => Some (EvReturn, State q pcs Returned (st_out s))
      | Some pc =>
          if is_alive pc then None
          else Some (EvThreadJoined n, State q pcs (Joining (S n)) (st_out s))
      end
  | Returned => None
  end.

Definition step (s : state) (a : action) : option (event * state) :=
  match a with
  | RunMain => check_website_status s
  | RunWorker i net => get_status s i net
  end.

(** A schedule, run from [s]: the events and the state reached, or [None]
    when the schedule picks a thread that cannot move. *)
Fixpoint run (s : state) (sched : list action) : option (list event * state) :=
  match sched with
  | [] => Some ([], s)
  | a :: rest =>
      match step s a with
      | None => None
      | Some (e, s1) =>
          match run s1 rest with
          | None => None
          | Some (es, s2) => Some (e :: es, s2)
          end
      end
  end.

(** The state in which [check_website_status(url_queue)] is entered. *)
Definition enter_check_website_status (url_queue : PyQueue.t) : state :=
  State url_queue [] (Starting 0) [].

(** *** [main] *)

(** What [main] has done when it reaches the pool: an exception left it, or
    [check_website_status] has been entered. *)
Inductive startup :=
| Uncaught (e : load_exception)
| Entered (s : state).

(** [urls = load_urls_from_file(args.input); url_queue = get_queue(urls);
    check_website_status(url_queue)].  The pool holds each URL as the
    [string] of its text. *)
Definition main (fs : filesystem) (input : string) : startup :=
  match load_urls_from_file fs input with
  | inl e => Uncaught e
  | inr urls =>
      Entered (enter_check_website_status (get_queue (PyStr.utf8 <$> urls)))
  end.

(** The pool's initial state for a list of URLs. *)
Definition initial (urls : list string) : state :=
  enter_check_website_status (get_queue urls).

(** *** Observations on traces and states *)

(** The URLs taken from the queue, with the worker that took each. *)
Definition gets (tr : list event) : list (nat * string) :=
  omap (fun e => match e with EvGet i url => Some (i, url) | _ => None end) tr.

(** The acknowledgements, by worker. *)
Definition acks (tr : list event) : list nat :=
  omap (fun e => match e with EvTaskDone i => Some i | _ => None end) tr.

(** The lines written, as clause and URL. *)
Definition writes (tr : list event) : list (clause * string) :=
  omap (fun e => match e with EvWrite _ c url => Some (c, url) | _ => None end) tr.

(** The threads started. *)
Definition starts (tr : list event) : list nat :=
  omap (fun e => match e with EvStart i => Some i | _ => None end) tr.

(** The URL a worker took and has not acknowledged yet. *)
Definition holds (pc : worker_pc) : option string :=
  match pc with
  | AtTry url | AtHandler url _ | AtFinally url => Some url
  | _ => None
  end.

(** The URL a worker took and has not reported yet. *)
Definition owes_line (pc : worker_pc) : option string :=
  match pc with
  | AtTry url | AtHandler url _ => Some url
  | _ => None
  end.

(** No thread can move. *)
Definition quiescent (s : state) : Prop := forall a, step s a = None.

(** An upper bound on the number of steps still possible from [s]. *)
Definition pc_rank (pc : worker_pc) : nat :=
  match pc with
  | Finished | Died => 0
  | AtGet => 1
  | AtWhile => 2
  | AtFinally _ => 3
  | AtHandler _ _ => 4
  | AtTry _ => 5
  end.

Definition main_rank (s : state) : nat :=
  match st_main s with
  | Returned => 0
  | Joining n => 1 + (length (st_threads s) - n)
  | AtQueueJoin => 2 + length (st_threads s)
  | Starting n => 3 + length (st_threads s) + 4 * (4 - n)
  end.

Definition steps_left (s : state) : nat :=
  5 * length (PyQueue.queue (st_queue s))
  + sum_list_with pc_rank (st_threads s)
  + main_rank s.

(** The threads before position [n] have terminated. *)
Definition joined (n : nat) (pcs : list worker_pc) : Prop :=
  forall i pc, i < n -> pcs !! i = Some pc -> is_alive pc = false.

(** What holds of the main thread's position. *)
Definition main_invariant (s : state) : Prop :=
  match st_main s with
  | Starting n => length (st_threads s) = n /\ n <= 4
  | AtQueueJoin => length (st_threads s) = 4
  | Joining n =>
      length (st_threads s) = 4
      /\ PyQueue.unfinished_tasks (st_queue s) = 0%Z
      /\ joined n (st_threads s)
  | Returned =>
      length (st_threads s) = 4
      /\ PyQueue.unfinished_tasks (st_queue s) = 0%Z
      /\ joined (length (st_threads s)) (st_threads s)
  end.

(** The text of a written line, from its clause and URL. *)
Definition render (w : clause * string) : stream * string :=
  clause_write w.1 w.2.

(** The invariant of every run over the URLs [urls]: [tr] is the trace so
    far and [s] the state reached. *)
Record invariant (urls : list string) (tr : list event) (s : state) : Prop := {
  (* the queue is consumed from its head, in order *)
  inv_fifo : urls = (gets tr).*2 ++ PyQueue.queue (st_queue s);
  (* the counter counts what is queued and what workers hold *)
  inv_unfinished :
    PyQueue.unfinished_tasks (st_queue s)
    = Z.of_nat (length (PyQueue.queue (st_queue s))
                + length (omap holds (st_threads s)));
  (* every item taken is acknowledged once, or still held *)
  inv_acked :
    length (gets tr) = length (acks tr) + length (omap holds (st_threads s));
  (* every item taken has its line, or a worker still owes it *)
  inv_reported :
    (gets tr).*2 ≡ₚ (writes tr).*2 ++ omap owes_line (st_threads s);
  inv_out : st_out s = render <$> writes tr;
  inv_alive : Forall (fun pc => pc <> Died) (st_threads s);
  (* a worker returns only after it saw the queue empty *)
  inv_finished :
    PyQueue.queue (st_queue s) = []
    \/ Forall (fun pc => pc <> Finished) (st_threads s);
  inv_started : starts tr = seq 0 (length (st_threads s));
  inv_main : main_invariant s
}.

End Wing.

(** ** Sample runs *)

Module Scenario.

Definition ok : Wing.get_result := Wing.Response 200.
Definition not_found : Wing.get_result := Wing.Response 404.
Definition missing_schema : Wing.get_result := Wing.Raises Wing.MissingSchema.

Definition urls : list string := ["http://example.com"; "not-a-url"].

(** The main thread starts the four workers and reaches [url_queue.join()]. *)
Definition start_pool : list Wing.action :=
  [Wing.RunMain; Wing.RunMain; Wing.RunMain; Wing.RunMain; Wing.RunMain].

(** Workers 0 and 1 take one URL each and process it in lockstep; then all
    four workers see the queue empty and return, and the main thread joins. *)
Definition complete_run : list Wing.action :=
  start_pool
  ++ [Wing.RunWorker 0 ok; Wing.RunWorker 1 missing_schema;
      Wing.RunWorker 0 ok; Wing.RunWorker 1 missing_schema;
      Wing.RunWorker 0 ok; Wing.RunWorker 1 missing_schema;
      Wing.RunWorker 0 ok; Wing.RunWorker 1 missing_schema;
      Wing.RunWorker 0 ok; Wing.RunWorker 1 missing_schema]
  ++ [Wing.RunWorker 0 ok; Wing.RunWorker 1 ok; Wing.RunWorker 2 ok;
      Wing.RunWorker 3 ok]
  ++ [Wing.RunMain; Wing.RunMain; Wing.RunMain; Wing.RunMain; Wing.RunMain;
      Wing.RunMain].

(** Worker 0 has taken the first URL and is about to request it. *)
Definition first_taken : list Wing.action :=
  [Wing.RunMain; Wing.RunWorker 0 ok; Wing.RunWorker 0 ok].

(** One URL, two workers racing for it: workers 0 and 1 both find the queue
    non-empty before either calls [get]; worker 0 takes the URL and finishes
    it; workers 0, 2 and 3 then see the queue empty and return; the main
    thread passes [url_queue.join()] and joins worker 0. *)
Definition single_url : list string := ["http://example.com"].

Definition racing_run : list Wing.action :=
  start_pool
  ++ [Wing.RunWorker 0 ok; Wing.RunWorker 1 ok]
  ++ [Wing.RunWorker 0 ok; Wing.RunWorker 0 ok; Wing.RunWorker 0 ok;
      Wing.RunWorker 0 ok; Wing.RunWorker 0 ok]
  ++ [Wing.RunWorker 2 ok; Wing.RunWorker 3 ok]
  ++ [Wing.RunMain; Wing.RunMain].

(** A file system with one readable file of three lines: a URL, a line
    between an EM SPACE and a NO-BREAK SPACE, and a line that holds a
    NEXT LINE character only; and one file that opens but does not decode
    after its first line. *)
Definition one_file : Wing.filesystem :=
  fun name =>
    if String.eqb name "urls.txt"
    then Wing.Yields
           [PyStr.codes ("http://example.com" +:+ PyStr.newline);
            [0x2003%N] ++ PyStr.codes "not-a-url" ++ [0xA0%N; 0x0A%N];
            [0x85%N; 0x0A%N]]
    else if String.eqb name "latin1.txt"
    then Wing.ReadRaises
           [PyStr.codes ("http://example.com" +:+ PyStr.newline)]
           Wing.UnicodeDecodeError
    else Wing.OpenRaises Wing.FileNotFoundError.

End Scenario.

(** ** [str.format] with keyword arguments

    The part of [template.format] with keyword arguments that [seeker.py]
    relies on:
    literal text, the escapes for the two braces, and replacement fields that
    are plain names, each replaced by [str] of the argument of that name.
    Conversions, format specifications, attribute and index lookups are not
    covered: a field holding one of their markers gives [None], as does every
    template on which Python raises (an unknown name, an empty field, a
    single brace). *)

Module PyFormat.

(** [str(n)] for a non-negative [int]. *)
Definition str_int (n : nat) : string :=
  NilZero.string_of_uint (Nat.to_uint n).

(** The keyword arguments, each already turned into its [str]. *)
Fixpoint kwarg (name : string) (kwargs : list (string * string)) : option string :=
  match kwargs with
  | [] => None
  | (k, v) :: rest => if String.eqb name k then Some v else kwarg name rest
  end.

Definition field_marker (c : ascii) : bool :=
  Ascii.eqb c "!" || Ascii.eqb c ":" || Ascii.eqb c "." || Ascii.eqb c "[".

(** One pass over the template.  [field] is [None] in literal text and
    [Some name] inside a replacement field whose name so far is [name]. *)
Fixpoint format_from (kwargs : list (string * string)) (field : option string)
    (template : string) : option string :=
  match template with
  | EmptyString =>
      match field with
      | None => Some EmptyString
      | Some _ => None
      end
  | String c rest =>
      match field with
      | None =>
          if Ascii.eqb c "{" then
            match rest with
            | String "{" rest' => String "{" <$> format_from kwargs None rest'
            | _ => format_from kwargs (Some EmptyString) rest
            end
          else if Ascii.eqb c "}" then
            match rest with
            | String "}" rest' => String "}" <$> format_from kwargs None rest'
            | _ => None
            end
          else String c <$> format_from kwargs None rest
      | Some name =>
          if Ascii.eqb c "}" then
            match kwarg name kwargs with
            | None => None
            | Some value => String.append value <$> format_from kwargs None rest
            end
          else if Ascii.eqb c "{" || field_marker c then None
          else format_from kwargs (Some (name +:+ String c EmptyString)) rest
      end
  end.

(** [template.format] applied to the keyword arguments [kwargs]. *)
Definition format (template : string) (kwargs : list (string * string))
  : option string :=
  format_from kwargs None template.

End PyFormat.

(** ** [seeker.py], the command *)

Module SeekerCli.

(** The file system as [Path.cwd().glob(pattern)] sees it: the paths that
    match, as their [str], in the order [glob] yields them. *)
Definition globber := string -> list string.

(** [for path in path.glob(f"**/*.{extension}"): yield path] *)
Definition search_for_files (glob : globber) (extension : string) : list string :=
  glob ("**/*." +:+ extension).

(** [if index: return "{index}: {file_path} \n"; return "{file_path} \n"] *)
Definition get_output_string_template (index : bool) : string :=
  if index then "{index}: {file_path} " +:+ PyStr.newline
  else "{file_path} " +:+ PyStr.newline.

(** [sys.stdout.write(template.format(index=index, file_path=file_path))]:
    the text written, or [None] when [format] raises. *)
Definition write_to_stdout (index : nat) (file_path : string) (template : string)
  : option string :=
  PyFormat.format template
    [("index", PyFormat.str_int index); ("file_path", file_path)].

(** The text that [write_to_stderr_and_exit] writes before [exit(1)]. *)
Definition write_to_stderr_and_exit (extension : string) : string :=
  "Error: No Files Found with extension ." +:+ extension.

(** How the process ends. *)
Inductive status :=
| Exit (code : Z)        (* normal end is code 0, [exit(1)] is code 1 *)
| FormatRaised.          (* an exception left [write_to_stdout] *)

Record result := Result {
  stdout : list string;   (* the writes to stdout, oldest first *)
  stderr : list string;   (* the writes to stderr *)
  ended : status
}.

(** The loop of [main]: [file_count] and the writes so far, after the files
    of [files]; [None] when a write raised. *)
Fixpoint report_files (template : string) (files : list string)
    (file_count : nat) (written : list string) : option (nat * list string) :=
  match files with
  | [] => Some (file_count, written)
  | file_path :: rest =>
      let file_count := file_count + 1 in
      match write_to_stdout file_count file_path template with
      | None => None
      | Some text => report_files template rest file_count (written ++ [text])
      end
  end.

(** [main], for the parsed arguments [extension] and [--index]. *)
Definition main (glob : globber) (args_extension : string) (args_index : bool)
  : result :=
  let extension := Seeker.sanitize_extension args_extension in
  let template := get_output_string_template args_index in
  match report_files template (search_for_files glob extension) 0 [] with
  | None => Result [] [] FormatRaised
  | Some (file_count, written) =>
      if Nat.eqb file_count 0
      then Result written [write_to_stderr_and_exit args_extension] (Exit 1)
      else Result written [] (Exit 0)
  end.

End SeekerCli.

(** ** A run in which one worker drains the queue *)

Module Sequential.

(** Worker 0 goes once round its loop: test, get, request, write,
    acknowledge; [net] is what the network answers. *)
Definition one_url (net : Wing.get_result) : list Wing.action :=
  [Wing.RunWorker 0 net; Wing.RunWorker 0 net; Wing.RunWorker 0 net;
   Wing.RunWorker 0 net; Wing.RunWorker 0 net].

(** Each worker finds the queue empty and returns. *)
Definition all_return : list Wing.action :=
  [Wing.RunWorker 0 Scenario.ok; Wing.RunWorker 1 Scenario.ok;
   Wing.RunWorker 2 Scenario.ok; Wing.RunWorker 3 Scenario.ok].

(** The main thread passes [url_queue.join()], joins the four threads and
    returns. *)
Definition join_all : list Wing.action :=
  [Wing.RunMain; Wing.RunMain; Wing.RunMain; Wing.RunMain; Wing.RunMain;
   Wing.RunMain].

(** The whole run, for the answers [nets], one per URL. *)
Definition schedule (nets : list Wing.get_result) : list Wing.action :=
  Scenario.start_pool ++ (nets ≫= one_url) ++ all_return ++ join_all.

(** The lines of the run, in the order of the URLs. *)
Definition lines (nets : list Wing.get_result) (urls : list string)
  : list (Wing.stream * string) :=
  zip_with (fun net url =>
              Wing.clause_write (Wing.select_clause (Wing.try_block net)) url)
    nets urls.

(** The end of a run in which two workers race for the last URL: workers 0
    and 1 both find the queue non-empty; worker 0 takes the URL, reports and
    acknowledges it, finds the queue empty and returns; so do workers 2 and
    3; the main thread passes [url_queue.join()] and joins worker 0. *)
Definition race_for_last (net : Wing.get_result) : list Wing.action :=
  [Wing.RunWorker 0 net; Wing.RunWorker 1 net;
   Wing.RunWorker 0 net; Wing.RunWorker 0 net; Wing.RunWorker 0 net;
   Wing.RunWorker 0 net; Wing.RunWorker 0 net;
   Wing.RunWorker 2 net; Wing.RunWorker 3 net;
   Wing.RunMain; Wing.RunMain].

(** Worker 0 drains all URLs but the last, then the race. *)
Definition racing_schedule (nets : list Wing.get_result) (net : Wing.get_result)
  : list Wing.action :=
  Scenario.start_pool ++ (nets ≫= one_url) ++ race_for_last net.

End Sequential.

(** A directory tree with two Python files. *)
Module SeekerScenario.

Definition two_files : SeekerCli.globber :=
  fun pattern =>
    if String.eqb pattern "**/*.py"
    then ["/repo/seeker.py"; "/repo/pkg/wing.py"]
    else [].

End SeekerScenario.

(** ** String lemmas *)

Lemma append_nil (s : string) : EmptyString +:+ s = s.
Proof. reflexivity. Qed.

Lemma append_cons (c : ascii) (s t : string) :
  String c s +:+ t = String c (s +:+ t).
Proof. reflexivity. Qed.

Section StripFacts.
Variable p : ascii -> bool.

Lemma lstrip_by_split (s : string) :
  exists pre, s = pre +:+ PyStr.lstrip_by p s /\ PyStr.all_chars p pre = true.
Proof.
  induction s as [|c rest [pre [Heq Hall]]]; simpl.
  - exists EmptyString. split; reflexivity.
  - destruct (p c) eqn:Hc.
    + exists (String c pre). rewrite append_cons. simpl. rewrite Hc, Hall.
      split; [|reflexivity]. f_equal. exact Heq.
    + exists EmptyString. split; reflexivity.
Qed.

Lemma lstrip_by_first (s : string) (c : ascii) :
  PyStr.first_char (PyStr.lstrip_by p s) = Some c -> p c = false.
Proof.
  induction s as [|d rest IH]; simpl; [discriminate|].
  destruct (p d) eqn:Hd; [exact IH|].
  simpl. intros [= <-]. exact Hd.
Qed.

Lemma lstrip_by_idem (s : string) :
  PyStr.lstrip_by p (PyStr.lstrip_by p s) = PyStr.lstrip_by p s.
Proof.
  induction s as [|d rest IH]; simpl; [reflexivity|].
  destruct (p d) eqn:Hd; [exact IH|]. simpl. rewrite Hd. reflexivity.
Qed.

End StripFacts.

Lemma all_dots_replicate (s : string) :
  PyStr.all_chars (fun c => PyStr.mem c ".") s = true ->
  s = PyStr.replicate_char (String.length s) "."%char.
Proof.
  induction s as [|c rest IH]; simpl; [reflexivity|].
  destruct (Ascii.eqb c ".") eqn:Hc; simpl; [|discriminate].
  intros H. apply Ascii.eqb_eq in Hc. subst c. f_equal. apply IH. exact H.
Qed.

(** C10. [sanitize_extension] strips every leading dot, not just one: the
    argument is a run of dots followed by the result, and the result does not
    begin with a dot.  Hence it is idempotent, and [.py], [..py] and [py] are
    all sanitized to [py]. *)
Theorem sanitize_extension_strips_all_leading_dots :
  (forall s : string,
     exists n : nat,
       s = PyStr.replicate_char n "."%char +:+ Seeker.sanitize_extension s
       /\ PyStr.first_char (Seeker.sanitize_extension s) <> Some "."%char)
  /\ (forall s : string,
        Seeker.sanitize_extension (Seeker.sanitize_extension s)
        = Seeker.sanitize_extension s)
  /\ Seeker.sanitize_extension ".py" = "py"
  /\ Seeker.sanitize_extension "..py" = "py"
  /\ Seeker.sanitize_extension "py" = "py".
Proof.
  repeat split.
  - intros s. unfold Seeker.sanitize_extension, PyStr.lstrip.
    destruct (lstrip_by_split (fun c => PyStr.mem c ".") s) as [pre [Heq Hall]].
    exists (String.length pre). split.
    + rewrite <- (all_dots_replicate pre Hall). exact Heq.
    + intros Hfirst. apply lstrip_by_first in Hfirst. discriminate Hfirst.
  - intros s. apply lstrip_by_idem.
Qed.

(** ** Lists of threads *)

Section ThreadLists.
Context {A B : Type}.

Lemma omap_insert_perm (f : A -> option B) (l : list A) (i : nat) (x y : A) :
  l !! i = Some x ->
  option_list (f x) ++ omap f (<[i:=y]> l) ≡ₚ option_list (f y) ++ omap f l.
Proof.
  revert i. induction l as [|a l IH]; intros i Hi; [discriminate|].
  destruct i as [|i]; simpl in Hi.
  - injection Hi as ->. csimpl. destruct (f x), (f y); simpl; try reflexivity.
    apply perm_swap.
  - specialize (IH i Hi). csimpl. destruct (f a) as [b|]; [|exact IH].
    rewrite <- !Permutation_middle. constructor. exact IH.
Qed.

Lemma omap_insert_length (f : A -> option B) (l : list A) (i : nat) (x y : A) :
  l !! i = Some x ->
  length (option_list (f x)) + length (omap f (<[i:=y]> l))
  = length (option_list (f y)) + length (omap f l).
Proof.
  intros Hi. rewrite <- !length_app.
  apply Permutation_length, omap_insert_perm, Hi.
Qed.

Lemma sum_list_with_insert (f : A -> nat) (l : list A) (i : nat) (x y : A) :
  l !! i = Some x ->
  sum_list_with f (<[i:=y]> l) + f x = sum_list_with f l + f y.
Proof.
  revert i. induction l as [|a l IH]; intros i Hi; [discriminate|].
  destruct i as [|i]; simpl in Hi.
  - injection Hi as ->. csimpl. lia.
  - specialize (IH i Hi). csimpl. lia.
Qed.
End ThreadLists.

Lemma joined_insert (n i : nat) (pcs : list Wing.worker_pc) (pc pc' : Wing.worker_pc) :
  Wing.joined n pcs -> pcs !! i = Some pc -> Wing.is_alive pc = true ->
  Wing.joined n (<[i:=pc']> pcs).
Proof.
  intros Hj Hi Hpc j pcj Hlt Hlook.
  destruct (decide (i = j)) as [->|Hne].
  - specialize (Hj j pc Hlt Hi). congruence.
  - rewrite list_lookup_insert_ne in Hlook by exact Hne. eapply Hj; eassumption.
Qed.

Lemma joined_past_end (n : nat) (pcs : list Wing.worker_pc) :
  Wing.joined n pcs -> pcs !! n = None -> Wing.joined (length pcs) pcs.
Proof.
  intros Hj Hnone i pc Hlt. apply Hj. apply lookup_ge_None in Hnone. lia.
Qed.

Lemma joined_succ (n : nat) (pcs : list Wing.worker_pc) (pc : Wing.worker_pc) :
  Wing.joined n pcs -> pcs !! n = Some pc -> Wing.is_alive pc = false ->
  Wing.joined (S n) pcs.
Proof.
  intros Hj Hn Hpc i pci Hlt Hi.
  destruct (decide (i = n)) as [->|Hne]; [congruence|].
  eapply Hj; [|eassumption]. lia.
Qed.

Lemma joined_all_finished (pcs : list Wing.worker_pc) :
  Wing.joined (length pcs) pcs ->
  Forall (fun pc => pc <> Wing.Died) pcs ->
  Forall (fun pc => pc = Wing.Finished) pcs.
Proof.
  intros Hj Halive. apply Forall_lookup. intros i pc Hi.
  pose proof (Hj i pc (lookup_lt_Some _ _ _ Hi) Hi) as Hdead.
  rewrite Forall_lookup in Halive. specialize (Halive i pc Hi).
  destruct pc; try discriminate; [reflexivity|contradiction].
Qed.

(** ** The queue built by [get_queue] *)

Lemma get_queue_from (urls : list string) (q : PyQueue.t) :
  fold_left (fun url_queue url => PyQueue.put url url_queue) urls q
  = PyQueue.Make (PyQueue.queue q ++ urls)
      (PyQueue.unfinished_tasks q + Z.of_nat (length urls)).
Proof.
  revert q. induction urls as [|url urls IH]; intros [items n]; simpl.
  - rewrite app_nil_r. f_equal. lia.
  - rewrite IH. simpl. rewrite <- app_assoc. f_equal. lia.
Qed.

Lemma get_queue_spec (urls : list string) :
  Wing.get_queue urls = PyQueue.Make urls (Z.of_nat (length urls)).
Proof. unfold Wing.get_queue. rewrite get_queue_from. reflexivity. Qed.

(** ** Runs *)

Lemma run_app (s : Wing.state) (sched1 sched2 : list Wing.action) :
  Wing.run s (sched1 ++ sched2)
  = match Wing.run s sched1 with
    | None => None
    | Some (es1, s1) =>
        match Wing.run s1 sched2 with
        | None => None
        | Some (es2, s2) => Some (es1 ++ es2, s2)
        end
    end.
Proof.
  revert s. induction sched1 as [|a sched1 IH]; intros s; simpl.
  - destruct (Wing.run s sched2) as [[es2 s2]|]; reflexivity.
  - destruct (Wing.step s a) as [[e s1]|]; [|reflexivity].
    rewrite IH. destruct (Wing.run s1 sched1) as [[es1 s1']|]; [|reflexivity].
    destruct (Wing.run s1' sched2) as [[es2 s2]|]; reflexivity.
Qed.

(** A run whose trace is [tr1 ++ tr2] passes through a state reached with
    trace [tr1]. *)
Lemma run_split (sched : list Wing.action) (s s' : Wing.state)
    (tr1 tr2 : list Wing.event) :
  Wing.run s sched = Some (tr1 ++ tr2, s') ->
  exists sched1 sched2 s1,
    sched = sched1 ++ sched2
    /\ Wing.run s sched1 = Some (tr1, s1)
    /\ Wing.run s1 sched2 = Some (tr2, s').
Proof.
  revert s tr1. induction sched as [|a sched IH]; intros s tr1; simpl.
  - intros [= Hnil <-]. symmetry in Hnil. apply app_eq_nil in Hnil as [-> ->].
    exists [], [], s. repeat split.
  - destruct (Wing.step s a) as [[e s1]|] eqn:Hstep; [|discriminate].
    destruct (Wing.run s1 sched) as [[es s2]|] eqn:Hrun; [|discriminate].
    intros [= Htr <-]. destruct tr1 as [|e1 tr1]; simpl in Htr.
    + exists [], (a :: sched), s. repeat split. simpl.
      rewrite Hstep, Hrun, Htr. reflexivity.
    + injection Htr as <- ->.
      destruct (IH s1 tr1 Hrun) as (sched1 & sched2 & s1' & -> & H1 & H2).
      exists (a :: sched1), sched2, s1'. repeat split; [|exact H2].
      simpl. rewrite Hstep, H1. reflexivity.
Qed.

(** ** The invariant holds along every run *)

Lemma gets_snoc (tr : list Wing.event) (e : Wing.event) :
  Wing.gets (tr ++ [e])
  = Wing.gets tr
    ++ match e with Wing.EvGet i url => [(i, url)] | _ => [] end.
Proof. unfold Wing.gets. rewrite omap_app. destruct e; reflexivity. Qed.

Lemma acks_snoc (tr : list Wing.event) (e : Wing.event) :
  Wing.acks (tr ++ [e])
  = Wing.acks tr ++ match e with Wing.EvTaskDone i => [i] | _ => [] end.
Proof. unfold Wing.acks. rewrite omap_app. destruct e; reflexivity. Qed.

Lemma writes_snoc (tr : list Wing.event) (e : Wing.event) :
  Wing.writes (tr ++ [e])
  = Wing.writes tr
    ++ match e with Wing.EvWrite _ c url => [(c, url)] | _ => [] end.
Proof. unfold Wing.writes. rewrite omap_app. destruct e; reflexivity. Qed.

Lemma starts_snoc (tr : list Wing.event) (e : Wing.event) :
  Wing.starts (tr ++ [e])
  = Wing.starts tr ++ match e with Wing.EvStart i => [i] | _ => [] end.
Proof. unfold Wing.starts. rewrite omap_app. destruct e; reflexivity. Qed.

Ltac trace_simpl :=
  rewrite ?gets_snoc, ?acks_snoc, ?writes_snoc, ?starts_snoc;
  cbn [app]; rewrite ?app_nil_r, ?fmap_app, ?length_app, ?length_insert;
  cbn [fmap list_fmap length snd fst].

(** The facts about [holds] and [owes_line] when the thread at [Hpc] moves
    to [pc']. *)
Ltac moves_to Hpc pc' Hh Ho :=
  pose proof (omap_insert_length Wing.holds _ _ _ pc' Hpc) as Hh;
  pose proof (omap_insert_perm Wing.owes_line _ _ _ pc' Hpc) as Ho;
  simpl in Hh, Ho.

Ltac split_ands :=
  repeat match goal with H : _ /\ _ |- _ => destruct H end.

(** The parts of the invariant that a move of the live thread at [Hpc]
    cannot break: what is unchanged, that no thread has died, and the
    position of the main thread. *)
Ltac thread_kept Hpc :=
  try assumption;
  try (apply Forall_insert; [assumption|discriminate]);
  try (match goal with
       | |- Wing.main_invariant (Wing.State _ _ ?m _) => destruct m
       end;
       unfold Wing.main_invariant; simpl; rewrite length_insert;
       split_ands; repeat split; try lia;
       (eapply joined_insert; [eassumption|exact Hpc|reflexivity])).

Section Invariant.
Variable urls : list string.

Lemma invariant_initial : Wing.invariant urls [] (Wing.initial urls).
Proof.
  unfold Wing.initial, Wing.enter_check_website_status.
  rewrite get_queue_spec.
  split; simpl; try reflexivity.
  - lia.
  - constructor.
  - right. constructor.
  - unfold Wing.main_invariant. simpl. lia.
Qed.

Lemma invariant_get_status tr s i net e s' :
  Wing.invariant urls tr s ->
  Wing.get_status s i net = Some (e, s') ->
  Wing.invariant urls (tr ++ [e]) s'.
Proof.
  intros [Hfifo Hunf Hack Hrep Hout Halive Hfin Hstart Hmain] Hstep.
  destruct s as [[items n] pcs m out]. unfold Wing.get_status in Hstep.
  unfold Wing.main_invariant in *. simpl in *.
  destruct (pcs !! i) as [pc|] eqn:Hpc; [|discriminate]. simpl in Hstep.
  destruct pc.
  - (* while not q.empty() *)
    destruct items as [|item items]; simpl in Hstep; injection Hstep as <- <-.
    + moves_to Hpc Wing.Finished Hh Ho.
      split; simpl; trace_simpl; thread_kept Hpc.
      * rewrite Hfifo, ?app_nil_r. reflexivity.
      * simpl in *. lia.
      * lia.
      * rewrite Ho. exact Hrep.
      * left. reflexivity.
    + moves_to Hpc Wing.AtGet Hh Ho.
      split; simpl; trace_simpl; thread_kept Hpc.
      * simpl in *. lia.
      * lia.
      * rewrite Ho. exact Hrep.
      * destruct Hfin as [Hq|Hf]; [discriminate Hq|].
        right. apply Forall_insert; [exact Hf|discriminate].
  - (* url = q.get() *)
    destruct items as [|item items]; simpl in Hstep; [discriminate|].
    injection Hstep as <- <-. simpl in Hunf.
    moves_to Hpc (Wing.AtTry item) Hh Ho.
    split; simpl; trace_simpl; thread_kept Hpc.
    + rewrite Hfifo, <- app_assoc. reflexivity.
    + lia.
    + simpl. lia.
    + rewrite Ho, Hrep. solve_Permutation.
    + destruct Hfin as [Hq|Hf]; [discriminate Hq|].
      right. apply Forall_insert; [exact Hf|discriminate].
  - (* try: requests.get, raise_for_status *)
    injection Hstep as <- <-.
    moves_to Hpc (Wing.AtHandler url (Wing.select_clause (Wing.try_block net))) Hh Ho.
    apply Permutation_cons_inv in Ho.
    split; simpl; trace_simpl; thread_kept Hpc.
    + lia.
    + lia.
    + rewrite Ho. exact Hrep.
    + destruct Hfin as [Hq|Hf]; [left; exact Hq|].
      right. apply Forall_insert; [exact Hf|discriminate].
  - (* except / else: write, flush *)
    injection Hstep as <- <-.
    moves_to Hpc (Wing.AtFinally url) Hh Ho.
    split; simpl; trace_simpl; thread_kept Hpc.
    + lia.
    + lia.
    + rewrite Hrep, <- Ho. solve_Permutation.
    + rewrite Hout. reflexivity.
    + destruct Hfin as [Hq|Hf]; [left; exact Hq|].
      right. apply Forall_insert; [exact Hf|discriminate].
  - (* finally: q.task_done() *)
    moves_to Hpc Wing.AtWhile Hh Ho.
    unfold PyQueue.task_done in Hstep. simpl in Hstep.
    destruct (n - 1 <? 0)%Z eqn:Hneg.
    { apply Z.ltb_lt in Hneg. lia. }
    injection Hstep as <- <-.
    split; simpl; trace_simpl; thread_kept Hpc.
    + lia.
    + simpl. lia.
    + rewrite Ho. exact Hrep.
    + destruct Hfin as [Hq|Hf]; [left; exact Hq|].
      right. apply Forall_insert; [exact Hf|discriminate].
  - discriminate.
  - discriminate.
Qed.

Lemma invariant_check_website_status tr s e s' :
  Wing.invariant urls tr s ->
  Wing.check_website_status s = Some (e, s') ->
  Wing.invariant urls (tr ++ [e]) s'.
Proof.
  intros [Hfifo Hunf Hack Hrep Hout Halive Hfin Hstart Hmain] Hstep.
  destruct s as [[items n] pcs m out]. unfold Wing.check_website_status in Hstep.
  unfold Wing.main_invariant in Hmain. simpl in *.
  destruct m as [k| |k|].
  - (* for _ in range(4): thread.start() *)
    destruct (Nat.ltb k 4) eqn:Hlt; injection Hstep as <- <-.
    + apply Nat.ltb_lt in Hlt.
      split; simpl; trace_simpl; rewrite ?omap_app; csimpl;
        rewrite ?app_nil_r; try assumption.
      * apply Forall_app. split; [exact Halive|]. repeat constructor. discriminate.
      * destruct Hfin as [Hq|Hf]; [left; exact Hq|right].
        apply Forall_app. split; [exact Hf|]. repeat constructor. discriminate.
      * rewrite Hstart, Nat.add_1_r, seq_S. reflexivity.
      * unfold Wing.main_invariant. simpl. rewrite length_app. simpl. lia.
    + apply Nat.ltb_ge in Hlt.
      split; simpl; trace_simpl; try assumption.
      unfold Wing.main_invariant. simpl. lia.
  - (* url_queue.join() *)
    unfold PyQueue.join_returns in Hstep. simpl in Hstep.
    destruct (n =? 0)%Z eqn:Hzero; [|discriminate].
    apply Z.eqb_eq in Hzero. injection Hstep as <- <-.
    split; simpl; trace_simpl; try assumption.
    unfold Wing.main_invariant. simpl. repeat split; try assumption.
    intros j pc Hj. lia.
  - (* for thread in threads: thread.join() *)
    destruct Hmain as (Hlen & Hzero & Hjoined).
    destruct (pcs !! k) as [pc|] eqn:Hk.
    + destruct (Wing.is_alive pc) eqn:Hpc; [discriminate|].
      injection Hstep as <- <-.
      split; simpl; trace_simpl; try assumption.
      unfold Wing.main_invariant. simpl. repeat split; try assumption.
      eapply joined_succ; eassumption.
    + injection Hstep as <- <-.
      split; simpl; trace_simpl; try assumption.
      unfold Wing.main_invariant. simpl. repeat split; try assumption.
      eapply joined_past_end; eassumption.
  - discriminate.
Qed.

Lemma invariant_step tr s a e s' :
  Wing.invariant urls tr s ->
  Wing.step s a = Some (e, s') ->
  Wing.invariant urls (tr ++ [e]) s'.
Proof.
  destruct a as [|i net]; simpl.
  - apply invariant_check_website_status.
  - apply invariant_get_status.
Qed.

Lemma invariant_run sched : forall tr s es s',
  Wing.invariant urls tr s ->
  Wing.run s sched = Some (es, s') ->
  Wing.invariant urls (tr ++ es) s'.
Proof.
  induction sched as [|a sched IH]; intros tr s es s' Hinv; simpl.
  - intros [= <- <-]. rewrite app_nil_r. exact Hinv.
  - destruct (Wing.step s a) as [[e s1]|] eqn:Hstep; [|discriminate].
    destruct (Wing.run s1 sched) as [[es1 s2]|] eqn:Hrun; [|discriminate].
    intros [= <- <-].
    replace (tr ++ e :: es1) with ((tr ++ [e]) ++ es1)
      by (rewrite <- app_assoc; reflexivity).
    eapply IH; [|exact Hrun]. eapply invariant_step; eassumption.
Qed.
End Invariant.

Lemma invariant_reachable (urls : list string) (sched : list Wing.action)
    (tr : list Wing.event) (s : Wing.state) :
  Wing.run (Wing.initial urls) sched = Some (tr, s) ->
  Wing.invariant urls tr s.
Proof.
  intros Hrun. apply (invariant_run urls sched [] _ _ _ (invariant_initial urls) Hrun).
Qed.

(** ** Every step uses up one of the steps left *)

Lemma step_decreases (s : Wing.state) (a : Wing.action) (e : Wing.event)
    (s' : Wing.state) :
  Wing.step s a = Some (e, s') -> Wing.steps_left s' < Wing.steps_left s.
Proof.
  destruct s as [[items n] pcs m out]. destruct a as [|i net]; simpl.
  - unfold Wing.check_website_status, Wing.steps_left, Wing.main_rank. simpl.
    destruct m as [k| |k|].
    + destruct (Nat.ltb k 4) eqn:Hlt; intros [= <- <-]; simpl.
      * apply Nat.ltb_lt in Hlt. rewrite sum_list_with_app, length_app.
        simpl. lia.
      * lia.
    + destruct (PyQueue.join_returns _); [|discriminate].
      intros [= <- <-]. simpl. lia.
    + destruct (pcs !! k) as [pc|] eqn:Hk.
      * destruct (Wing.is_alive pc); [discriminate|].
        intros [= <- <-]. simpl. apply lookup_lt_Some in Hk. lia.
      * intros [= <- <-]. simpl. lia.
    + discriminate.
  - unfold Wing.get_status, Wing.steps_left, Wing.main_rank. simpl.
    destruct (pcs !! i) as [pc|] eqn:Hpc; [|discriminate]. simpl.
    destruct pc.
    + destruct items; simpl; intros [= <- <-]; simpl; rewrite length_insert;
        match goal with |- context [<[_:=?pc']> _] =>
          pose proof (sum_list_with_insert Wing.pc_rank pcs i _ pc' Hpc) as Hsum
        end; simpl in Hsum; lia.
    + destruct items as [|item items]; simpl; [discriminate|].
      intros [= <- <-]; simpl; rewrite length_insert.
      pose proof (sum_list_with_insert Wing.pc_rank pcs i _ (Wing.AtTry item) Hpc) as Hsum.
      simpl in Hsum. lia.
    + intros [= <- <-]; simpl; rewrite length_insert.
      match goal with |- context [<[_:=?pc']> _] =>
        pose proof (sum_list_with_insert Wing.pc_rank pcs i _ pc' Hpc) as Hsum
      end; simpl in Hsum; lia.
    + intros [= <- <-]; simpl; rewrite length_insert.
      match goal with |- context [<[_:=?pc']> _] =>
        pose proof (sum_list_with_insert Wing.pc_rank pcs i _ pc' Hpc) as Hsum
      end; simpl in Hsum; lia.
    + unfold PyQueue.task_done. simpl.
      destruct (n - 1 <? 0)%Z; intros [= <- <-]; simpl; rewrite length_insert;
        match goal with |- context [<[_:=?pc']> _] =>
          pose proof (sum_list_with_insert Wing.pc_rank pcs i _ pc' Hpc) as Hsum
        end; simpl in Hsum; lia.
    + discriminate.
    + discriminate.
Qed.

Lemma run_bounded (sched : list Wing.action) (s s' : Wing.state)
    (tr : list Wing.event) :
  Wing.run s sched = Some (tr, s') ->
  length sched + Wing.steps_left s' <= Wing.steps_left s.
Proof.
  revert s tr. induction sched as [|a sched IH]; intros s tr; simpl.
  - intros [= <- <-]. lia.
  - destruct (Wing.step s a) as [[e s1]|] eqn:Hstep; [|discriminate].
    destruct (Wing.run s1 sched) as [[es s2]|] eqn:Hrun; [|discriminate].
    intros [= <- <-]. apply step_decreases in Hstep. apply IH in Hrun. lia.
Qed.

Lemma steps_left_initial (urls : list string) :
  Wing.steps_left (Wing.initial urls) = 5 * length urls + 19.
Proof.
  unfold Wing.initial. rewrite get_queue_spec.
  unfold Wing.steps_left, Wing.main_rank. simpl. lia.
Qed.

(** ** The claims *)

Lemma owes_line_held (pcs : list Wing.worker_pc) :
  omap Wing.holds pcs = [] -> omap Wing.owes_line pcs = [].
Proof.
  induction pcs as [|pc pcs IH]; [reflexivity|]. csimpl.
  destruct pc; simpl; try discriminate; exact IH.
Qed.

(** Once [url_queue.join()] has returned, the queue is empty and no worker
    holds an item. *)
Lemma drained (urls : list string) (tr : list Wing.event) (s : Wing.state) :
  Wing.invariant urls tr s ->
  PyQueue.unfinished_tasks (Wing.st_queue s) = 0%Z ->
  PyQueue.queue (Wing.st_queue s) = []
  /\ omap Wing.holds (Wing.st_threads s) = []
  /\ omap Wing.owes_line (Wing.st_threads s) = [].
Proof.
  intros Hinv Hzero. pose proof (Wing.inv_unfinished _ _ _ Hinv) as Hunf.
  rewrite Hzero in Hunf.
  assert (PyQueue.queue (Wing.st_queue s) = []) as Hq
    by (apply length_zero_iff_nil; lia).
  assert (omap Wing.holds (Wing.st_threads s) = []) as Hh
    by (apply length_zero_iff_nil; lia).
  auto using owes_line_held.
Qed.

(** Then every URL has been taken, acknowledged and reported. *)
Lemma drained_all_reported (urls : list string) (tr : list Wing.event)
    (s : Wing.state) :
  Wing.invariant urls tr s ->
  PyQueue.unfinished_tasks (Wing.st_queue s) = 0%Z ->
  (Wing.gets tr).*2 = urls
  /\ length (Wing.acks tr) = length urls
  /\ exists done : list (Wing.clause * string),
       done.*2 = urls /\ Wing.st_out s ≡ₚ Wing.render <$> done.
Proof.
  intros Hinv Hzero. destruct (drained urls tr s Hinv Hzero) as (Hq & Hh & Ho).
  destruct Hinv as [Hfifo _ Hack Hrep Hout _ _ _ _].
  rewrite Hq, app_nil_r in Hfifo. rewrite Hh in Hack. rewrite Ho, app_nil_r in Hrep.
  split; [symmetry; exact Hfifo|]. split.
  - rewrite Hfifo, length_fmap. simpl in Hack. lia.
  - rewrite <- Hfifo in Hrep.
    apply (Permutation_map_inv snd) in Hrep as (done & Hdone & Hperm).
    exists done. split; [symmetry; exact Hdone|].
    rewrite Hout. apply fmap_Permutation. exact Hperm.
Qed.

(** C1. A worker that has taken [url] and performs its request writes one
    line, chosen by the outcome: a response whose status is no error gives
    [Successfully connected to <url>] on stdout; a response with status 400
    to 599, for which [raise_for_status] raises [HTTPError], gives
    [HTTP error occurred for <url>] on stderr; any other exception gives
    [Error occurred for <url>] on stderr.  Each line ends with a newline. *)
Theorem get_status_reports_outcome (s : Wing.state) (i : nat) (url : string)
    (net : Wing.get_result) :
  Wing.st_threads s !! i = Some (Wing.AtTry url) ->
  exists c s1 s2 line,
    Wing.step s (Wing.RunWorker i net) = Some (Wing.EvRequest i url net, s1)
    /\ Wing.step s1 (Wing.RunWorker i net) = Some (Wing.EvWrite i c url, s2)
    /\ Wing.st_out s1 = Wing.st_out s
    /\ Wing.st_out s2 = Wing.st_out s ++ [line]
    /\ (forall status_code, net = Wing.Response status_code ->
          (status_code < 400 \/ 600 <= status_code)%Z ->
          line = (Wing.Stdout,
                  "Successfully connected to " +:+ url +:+ PyStr.newline))
    /\ (forall status_code, net = Wing.Response status_code ->
          (400 <= status_code < 600)%Z ->
          line = (Wing.Stderr,
                  "HTTP error occurred for " +:+ url +:+ PyStr.newline))
    /\ (net = Wing.Raises Wing.HTTPError ->
          line = (Wing.Stderr,
                  "HTTP error occurred for " +:+ url +:+ PyStr.newline))
    /\ (forall e, net = Wing.Raises e -> e <> Wing.HTTPError ->
          line = (Wing.Stderr,
                  "Error occurred for " +:+ url +:+ PyStr.newline)).
Proof.
  intros Hpc. destruct s as [q pcs m out]. simpl in Hpc.
  assert (i < length pcs) as Hlt by (eapply lookup_lt_Some; exact Hpc).
  exists (Wing.select_clause (Wing.try_block net)).
  eexists _, _, _. split; [|split; [|split; [|split]]].
  - simpl. unfold Wing.get_status. simpl. rewrite Hpc. reflexivity.
  - simpl. unfold Wing.get_status. simpl.
    rewrite list_lookup_insert_eq by exact Hlt. reflexivity.
  - reflexivity.
  - reflexivity.
  - repeat split.
    + intros sc -> Hsc. simpl. unfold Wing.raise_for_status.
      destruct ((400 <=? sc) && (sc <? 600))%Z eqn:Herr; [|reflexivity].
      apply andb_true_iff in Herr as [H1 H2].
      apply Z.leb_le in H1. apply Z.ltb_lt in H2. lia.
    + intros sc -> [H1 H2]. simpl. unfold Wing.raise_for_status.
      apply Z.leb_le in H1. apply Z.ltb_lt in H2. rewrite H1, H2. reflexivity.
    + intros ->. reflexivity.
    + intros e -> He. simpl. destruct e; try reflexivity. contradiction.
Qed.

Lemma get_status_reports_outcome_witness :
  exists c s1 s2 line,
    let s := Wing.State (PyQueue.Make [] 1) [Wing.AtTry "http://example.com/missing"]
               Wing.AtQueueJoin [] in
    let url := "http://example.com/missing" in
    let net := Wing.Response 404 in
    Wing.step s (Wing.RunWorker 0 net) = Some (Wing.EvRequest 0 url net, s1)
    /\ Wing.step s1 (Wing.RunWorker 0 net) = Some (Wing.EvWrite 0 c url, s2)
    /\ Wing.st_out s1 = Wing.st_out s
    /\ Wing.st_out s2 = Wing.st_out s ++ [line]
    /\ line = (Wing.Stderr,
               "HTTP error occurred for " +:+ url +:+ PyStr.newline).
Proof.
  destruct (get_status_reports_outcome
              (Wing.State (PyQueue.Make [] 1)
                 [Wing.AtTry "http://example.com/missing"] Wing.AtQueueJoin [])
              0 "http://example.com/missing" (Wing.Response 404) eq_refl)
    as (c & s1 & s2 & line & H1 & H2 & H3 & H4 & _ & H5 & _).
  exists c, s1, s2, line. simpl.
  repeat split; try assumption. apply (H5 404%Z eq_refl). lia.
Defined.

(** C2. In a complete run every URL of the list is taken from the queue
    exactly once, in the order of the list, and the output holds exactly one
    line for each of them. *)
Theorem one_line_per_url (urls : list string) (sched : list Wing.action)
    (tr : list Wing.event) (s : Wing.state) :
  Wing.run (Wing.initial urls) sched = Some (tr, s) ->
  Wing.st_main s = Wing.Returned ->
  (Wing.gets tr).*2 = urls
  /\ length (Wing.st_out s) = length urls
  /\ exists done : list (Wing.clause * string),
       done.*2 = urls /\ Wing.st_out s ≡ₚ Wing.render <$> done.
Proof.
  intros Hrun Hret. pose proof (invariant_reachable _ _ _ _ Hrun) as Hinv.
  pose proof (Wing.inv_main _ _ _ Hinv) as Hmain.
  unfold Wing.main_invariant in Hmain. rewrite Hret in Hmain.
  destruct Hmain as (_ & Hzero & _).
  destruct (drained_all_reported urls tr s Hinv Hzero)
    as (Hgets & _ & done & Hdone & Hperm).
  split; [exact Hgets|]. split; [|exists done; split; assumption].
  rewrite Hperm, length_fmap, <- Hdone, length_fmap. reflexivity.
Qed.

Lemma one_line_per_url_witness :
  exists tr s,
    Wing.run (Wing.initial Scenario.urls) Scenario.complete_run = Some (tr, s)
    /\ Wing.st_main s = Wing.Returned
    /\ (Wing.gets tr).*2 = Scenario.urls
    /\ length (Wing.st_out s) = length Scenario.urls
    /\ exists done : list (Wing.clause * string),
         done.*2 = Scenario.urls /\ Wing.st_out s ≡ₚ Wing.render <$> done.
Proof.
  eexists _, _.
  split; [vm_compute; reflexivity|]. split; [reflexivity|].
  apply (one_line_per_url Scenario.urls Scenario.complete_run);
    [vm_compute; reflexivity|reflexivity].
Defined.

Lemma holds_none_omap (pcs : list Wing.worker_pc) :
  Forall (fun pc => Wing.holds pc = None) pcs -> omap Wing.holds pcs = [].
Proof.
  induction 1 as [|pc pcs Hpc _ IH]; [reflexivity|]. csimpl.
  rewrite Hpc. exact IH.
Qed.

(** When no thread can move, the counter of the queue is zero. *)
Lemma quiescent_drained (urls : list string) (tr : list Wing.event)
    (s : Wing.state) :
  Wing.invariant urls tr s -> Wing.quiescent s ->
  PyQueue.unfinished_tasks (Wing.st_queue s) = 0%Z.
Proof.
  intros Hinv Hq. destruct s as [[items n] pcs m out].
  (* every worker has terminated or waits in get on an empty queue *)
  assert (forall i pc, pcs !! i = Some pc ->
            Wing.is_alive pc = false \/ (pc = Wing.AtGet /\ items = [])) as Hw.
  { intros i pc Hpc. specialize (Hq (Wing.RunWorker i (Wing.Response 200))).
    simpl in Hq. unfold Wing.get_status in Hq. simpl in Hq. rewrite Hpc in Hq.
    simpl in Hq. destruct pc; try discriminate; auto.
    - destruct items; discriminate.
    - right. destruct items; [auto|discriminate].
    - unfold PyQueue.task_done in Hq. simpl in Hq.
      destruct (n - 1 <? 0)%Z; discriminate. }
  pose proof (Wing.inv_unfinished _ _ _ Hinv) as Hunf.
  pose proof (Wing.inv_main _ _ _ Hinv) as Hmain.
  pose proof (Wing.inv_alive _ _ _ Hinv) as Halive.
  pose proof (Wing.inv_finished _ _ _ Hinv) as Hfin.
  unfold Wing.main_invariant in Hmain. simpl in *.
  assert (omap Wing.holds pcs = []) as Hh.
  { apply holds_none_omap, Forall_lookup. intros i pc Hpc.
    destruct (Hw i pc Hpc) as [Hdead|[-> _]]; [|reflexivity].
    destruct pc; try discriminate; reflexivity. }
  assert (length pcs = 4) as Hlen.
  { specialize (Hq Wing.RunMain). simpl in Hq.
    unfold Wing.check_website_status in Hq. simpl in Hq.
    destruct m as [k| |k|]; try tauto.
    destruct (Nat.ltb k 4); discriminate. }
  assert (items = []) as Hitems.
  { destruct (pcs !! 0) as [pc|] eqn:Hpc.
    - destruct (Hw 0 pc Hpc) as [Hdead|[_ Hnil]]; [|exact Hnil].
      destruct Hfin as [Hnil|Hnone]; [exact Hnil|].
      rewrite Forall_lookup in Halive, Hnone.
      specialize (Halive 0 pc Hpc). specialize (Hnone 0 pc Hpc).
      destruct pc; try discriminate; contradiction.
    - apply lookup_ge_None in Hpc. lia. }
  rewrite Hunf, Hh, Hitems. reflexivity.
Qed.

(** C3. A failed check stays inside the worker that ran it: no exception
    ever leaves a worker, a request that raises moves only its own worker
    (into one of the two except clauses) and leaves the queue, the other
    workers and the main thread as they were; every run is finite, and once
    no thread can move, every URL of the list has been taken and reported. *)
Theorem failures_are_contained (urls : list string) (sched : list Wing.action)
    (tr : list Wing.event) (s : Wing.state) :
  Wing.run (Wing.initial urls) sched = Some (tr, s) ->
  Forall (fun pc => pc <> Wing.Died) (Wing.st_threads s)
  /\ (forall i url net e,
        Wing.st_threads s !! i = Some (Wing.AtTry url) ->
        Wing.try_block net = Some e ->
        exists c,
          c <> Wing.Else
          /\ Wing.step s (Wing.RunWorker i net)
             = Some (Wing.EvRequest i url net,
                     Wing.State (Wing.st_queue s)
                       (<[i:=Wing.AtHandler url c]> (Wing.st_threads s))
                       (Wing.st_main s) (Wing.st_out s))
          /\ forall j, j <> i ->
               <[i:=Wing.AtHandler url c]> (Wing.st_threads s) !! j
               = Wing.st_threads s !! j)
  /\ length sched + Wing.steps_left s <= 5 * length urls + 19
  /\ (Wing.quiescent s ->
        PyQueue.queue (Wing.st_queue s) = []
        /\ (Wing.gets tr).*2 = urls
        /\ exists done : list (Wing.clause * string),
             done.*2 = urls /\ Wing.st_out s ≡ₚ Wing.render <$> done).
Proof.
  intros Hrun. pose proof (invariant_reachable _ _ _ _ Hrun) as Hinv.
  split; [exact (Wing.inv_alive _ _ _ Hinv)|]. split; [|split].
  - intros i url net e Hpc Hraise.
    exists (Wing.select_clause (Wing.try_block net)). split; [|split].
    + rewrite Hraise. simpl. destruct (Wing.isinstance_HTTPError e); discriminate.
    + simpl. unfold Wing.get_status. rewrite Hpc. reflexivity.
    + intros j Hne. apply list_lookup_insert_ne. auto.
  - rewrite <- steps_left_initial. eapply run_bounded. exact Hrun.
  - intros Hq. pose proof (quiescent_drained urls tr s Hinv Hq) as Hzero.
    destruct (drained urls tr s Hinv Hzero) as (Hnil & _).
    destruct (drained_all_reported urls tr s Hinv Hzero) as (Hgets & _ & Hdone).
    auto.
Qed.

Lemma failures_are_contained_witness :
  exists tr s,
    Wing.run (Wing.initial Scenario.urls) Scenario.complete_run = Some (tr, s)
    /\ Forall (fun pc => pc <> Wing.Died) (Wing.st_threads s)
    /\ length Scenario.complete_run + Wing.steps_left s
       <= 5 * length Scenario.urls + 19.
Proof.
  eexists _, _. split; [vm_compute; reflexivity|].
  edestruct (failures_are_contained Scenario.urls Scenario.complete_run)
    as (Halive & _ & Hbound & _); [vm_compute; reflexivity|].
  split; [exact Halive|exact Hbound].
Defined.

(** C4. Whatever clause of the [try] statement runs, the worker goes on to
    [finally], and [q.task_done()] there always succeeds and lowers the
    counter by exactly one: from the request, through the write, to the
    acknowledgement, each step of the worker is enabled, whatever the network
    answered.  Along every run the acknowledgements are as many as the items
    taken, less those still held by a worker. *)
Theorem task_done_runs_once (urls : list string) (sched : list Wing.action)
    (tr : list Wing.event) (s : Wing.state) :
  Wing.run (Wing.initial urls) sched = Some (tr, s) ->
  (forall i url net,
     Wing.st_threads s !! i = Some (Wing.AtTry url) ->
     Wing.step s (Wing.RunWorker i net)
     = Some (Wing.EvRequest i url net,
             Wing.State (Wing.st_queue s)
               (<[i:=Wing.AtHandler url (Wing.select_clause (Wing.try_block net))]>
                  (Wing.st_threads s))
               (Wing.st_main s) (Wing.st_out s)))
  /\ (forall i url c net,
        Wing.st_threads s !! i = Some (Wing.AtHandler url c) ->
        Wing.step s (Wing.RunWorker i net)
        = Some (Wing.EvWrite i c url,
                Wing.State (Wing.st_queue s)
                  (<[i:=Wing.AtFinally url]> (Wing.st_threads s))
                  (Wing.st_main s)
                  (Wing.st_out s ++ [Wing.clause_write c url])))
  /\ (forall i url net,
        Wing.st_threads s !! i = Some (Wing.AtFinally url) ->
        Wing.step s (Wing.RunWorker i net)
        = Some (Wing.EvTaskDone i,
                Wing.State
                  (PyQueue.Make (PyQueue.queue (Wing.st_queue s))
                     (PyQueue.unfinished_tasks (Wing.st_queue s) - 1))
                  (<[i:=Wing.AtWhile]> (Wing.st_threads s))
                  (Wing.st_main s) (Wing.st_out s)))
  /\ length (Wing.gets tr)
     = length (Wing.acks tr) + length (omap Wing.holds (Wing.st_threads s)).
Proof.
  intros Hrun. pose proof (invariant_reachable _ _ _ _ Hrun) as Hinv.
  repeat split.
  - intros i url net Hpc. simpl. unfold Wing.get_status. rewrite Hpc. reflexivity.
  - intros i url c net Hpc. simpl. unfold Wing.get_status. rewrite Hpc. reflexivity.
  - intros i url net Hpc. simpl. unfold Wing.get_status. rewrite Hpc. simpl.
    pose proof (Wing.inv_unfinished _ _ _ Hinv) as Hunf.
    pose proof (omap_insert_length Wing.holds _ _ _ Wing.AtWhile Hpc) as Hh.
    simpl in Hh. unfold PyQueue.task_done.
    destruct (PyQueue.unfinished_tasks (Wing.st_queue s) - 1 <? 0)%Z eqn:Hneg;
      [|reflexivity].
    apply Z.ltb_lt in Hneg. lia.
  - exact (Wing.inv_acked _ _ _ Hinv).
Qed.

Lemma task_done_runs_once_witness :
  exists tr s,
    Wing.run (Wing.initial Scenario.urls) Scenario.first_taken = Some (tr, s)
    /\ Wing.st_threads s !! 0 = Some (Wing.AtTry "http://example.com")
    /\ Wing.step s (Wing.RunWorker 0 Scenario.not_found)
       = Some (Wing.EvRequest 0 "http://example.com" Scenario.not_found,
               Wing.State (Wing.st_queue s)
                 [Wing.AtHandler "http://example.com" Wing.ExceptHTTPError]
                 (Wing.st_main s) (Wing.st_out s)).
Proof.
  eexists _, _. split; [vm_compute; reflexivity|]. split; [reflexivity|].
  edestruct (task_done_runs_once Scenario.urls Scenario.first_taken)
    as (Htry & _); [vm_compute; reflexivity|].
  apply (Htry 0 "http://example.com" Scenario.not_found). reflexivity.
Defined.

(** A state in which no thread can move is never left. *)
Lemma quiescent_stays (s s' : Wing.state) (sched : list Wing.action)
    (tr : list Wing.event) :
  Wing.quiescent s -> Wing.run s sched = Some (tr, s') -> s' = s.
Proof.
  intros Hq. destruct sched as [|a sched]; simpl.
  - intros [= <- <-]. reflexivity.
  - rewrite (Hq a). discriminate.
Qed.

(** C5, as the code has it.  With a single URL, two workers can both find
    the queue non-empty before either calls [q.get()]; the one that comes
    second then waits in [get] on a queue that stays empty.  In the state
    reached no thread can move: the main thread is past [url_queue.join()]
    and waits in [thread.join()] for that worker, so
    [check_website_status] never returns. *)
Theorem worker_blocks_in_get :
  exists tr s,
    Wing.run (Wing.initial Scenario.single_url) Scenario.racing_run = Some (tr, s)
    /\ Wing.st_threads s !! 1 = Some Wing.AtGet
    /\ PyQueue.queue (Wing.st_queue s) = []
    /\ Wing.st_main s = Wing.Joining 1
    /\ Wing.quiescent s
    /\ forall sched tr' s',
         Wing.run s sched = Some (tr', s') -> Wing.st_main s' <> Wing.Returned.
Proof.
  eexists _, _. split; [vm_compute; reflexivity|].
  match goal with |- _ /\ _ /\ _ /\ Wing.quiescent ?s /\ _ =>
    assert (Wing.quiescent s) as Hq
  end.
  { intros [|i net]; [reflexivity|].
    do 4 (destruct i as [|i]; [reflexivity|]). reflexivity. }
  repeat split; try exact Hq.
  intros sched tr' s' Hrun. rewrite (quiescent_stays _ _ _ _ Hq Hrun).
  discriminate.
Qed.

Lemma step_queue_joined (s s' : Wing.state) (a : Wing.action) :
  Wing.step s a = Some (Wing.EvQueueJoined, s') ->
  Wing.st_main s = Wing.AtQueueJoin
  /\ PyQueue.unfinished_tasks (Wing.st_queue s) = 0%Z.
Proof.
  destruct s as [[items n] pcs m out]. destruct a as [|i net]; simpl.
  - unfold Wing.check_website_status. simpl. destruct m as [k| |k|].
    + destruct (Nat.ltb k 4); discriminate.
    + unfold PyQueue.join_returns. simpl.
      destruct (n =? 0)%Z eqn:Hzero; [|discriminate].
      apply Z.eqb_eq in Hzero. auto.
    + destruct (pcs !! k) as [pc|]; [|discriminate].
      destruct (Wing.is_alive pc); discriminate.
    + discriminate.
  - unfold Wing.get_status. simpl.
    destruct (pcs !! i) as [pc|]; [|discriminate]. simpl.
    destruct pc; try discriminate.
    + destruct (PyQueue.empty _); discriminate.
    + destruct (PyQueue.get _) as [[url q']|]; discriminate.
    + destruct (PyQueue.task_done _); discriminate.
Qed.

(** C6. When [url_queue.join()] returns, at position [k] of the trace, the
    events before it already hold the [get] of every URL of the list, in
    order, and as many [task_done] as there are URLs; the workers may run in
    any interleaving. *)
Theorem queue_join_waits_for_every_item (urls : list string)
    (sched : list Wing.action) (tr : list Wing.event) (s : Wing.state) (k : nat) :
  Wing.run (Wing.initial urls) sched = Some (tr, s) ->
  tr !! k = Some Wing.EvQueueJoined ->
  (Wing.gets (take k tr)).*2 = urls
  /\ length (Wing.acks (take k tr)) = length urls
  /\ length (Wing.starts (take k tr)) = 4.
Proof.
  intros Hrun Hk. rewrite <- (take_drop_middle tr k _ Hk) in Hrun.
  apply run_split in Hrun as (sched1 & sched2 & s1 & -> & Hrun1 & Hrun2).
  destruct sched2 as [|a sched2]; simpl in Hrun2; [discriminate|].
  destruct (Wing.step s1 a) as [[e s2]|] eqn:Hstep; [|discriminate].
  destruct (Wing.run s2 sched2) as [[es s3]|]; [|discriminate].
  injection Hrun2 as -> _ _.
  apply step_queue_joined in Hstep as [Hmain Hzero].
  pose proof (invariant_reachable _ _ _ _ Hrun1) as Hinv.
  destruct (drained_all_reported urls _ s1 Hinv Hzero) as (Hgets & Hacks & _).
  split; [exact Hgets|]. split; [exact Hacks|].
  pose proof (Wing.inv_main _ _ _ Hinv) as Hm. unfold Wing.main_invariant in Hm.
  rewrite Hmain in Hm. rewrite (Wing.inv_started _ _ _ Hinv), length_seq. exact Hm.
Qed.

Lemma queue_join_waits_for_every_item_witness :
  exists tr s,
    Wing.run (Wing.initial Scenario.urls) Scenario.complete_run = Some (tr, s)
    /\ tr !! 19 = Some Wing.EvQueueJoined
    /\ (Wing.gets (take 19 tr)).*2 = Scenario.urls
    /\ length (Wing.acks (take 19 tr)) = length Scenario.urls
    /\ length (Wing.starts (take 19 tr)) = 4.
Proof.
  eexists _, _. split; [vm_compute; reflexivity|]. split; [reflexivity|].
  eapply (queue_join_waits_for_every_item Scenario.urls Scenario.complete_run);
    [vm_compute; reflexivity|reflexivity].
Defined.

Lemma step_value_error (s s' : Wing.state) (a : Wing.action) (i : nat) :
  Wing.step s a = Some (Wing.EvValueError i, s') ->
  Wing.Died ∈ Wing.st_threads s'.
Proof.
  destruct s as [[items n] pcs m out]. destruct a as [|j net]; simpl.
  - unfold Wing.check_website_status. simpl. destruct m as [c| |c|].
    + destruct (Nat.ltb c 4); discriminate.
    + destruct (PyQueue.join_returns _); discriminate.
    + destruct (pcs !! c) as [pc|]; [|discriminate].
      destruct (Wing.is_alive pc); discriminate.
    + discriminate.
  - unfold Wing.get_status. simpl.
    destruct (pcs !! j) as [pc|] eqn:Hpc; [|discriminate]. simpl.
    destruct pc; try discriminate.
    + destruct (PyQueue.empty _); discriminate.
    + destruct (PyQueue.get _) as [[url q']|]; discriminate.
    + destruct (PyQueue.task_done _); [discriminate|].
      intros [= _ <-]. simpl. apply list_elem_of_insert.
      eapply lookup_lt_Some. exact Hpc.
Qed.

(** [task_done] is never called once too often. *)
Lemma never_value_error (urls : list string) (sched : list Wing.action)
    (tr : list Wing.event) (s : Wing.state) (i : nat) :
  Wing.run (Wing.initial urls) sched = Some (tr, s) ->
  Wing.EvValueError i ∉ tr.
Proof.
  intros Hrun Hin. apply list_elem_of_lookup in Hin as [k Hk].
  rewrite <- (take_drop_middle tr k _ Hk) in Hrun.
  apply run_split in Hrun as (sched1 & sched2 & s1 & -> & Hrun1 & Hrun2).
  destruct sched2 as [|a sched2]; simpl in Hrun2; [discriminate|].
  destruct (Wing.step s1 a) as [[e s2]|] eqn:Hstep; [|discriminate].
  destruct (Wing.run s2 sched2) as [[es s3]|]; [|discriminate].
  injection Hrun2 as -> _ _.
  pose proof (invariant_step urls _ _ _ _ _
                (invariant_reachable _ _ _ _ Hrun1) Hstep) as Hinv.
  pose proof (Wing.inv_alive _ _ _ Hinv) as Halive.
  apply step_value_error in Hstep. rewrite Forall_forall in Halive.
  exact (Halive Wing.Died Hstep eq_refl).
Qed.

(** ** [str.strip] on text *)

Lemma lstrip_space_split (t : list N) :
  exists pre,
    t = pre ++ PyStr.lstrip_space t
    /\ Forall (fun c => PyStr.isspace c = true) pre.
Proof.
  induction t as [|c rest (pre & Heq & Hpre)]; simpl.
  - exists []. split; [reflexivity|constructor].
  - destruct (PyStr.isspace c) eqn:Hc.
    + exists (c :: pre). split; [simpl; f_equal; exact Heq|].
      constructor; assumption.
    + exists []. split; [reflexivity|constructor].
Qed.

Lemma lstrip_space_head (t : list N) (c : N) :
  head (PyStr.lstrip_space t) = Some c -> PyStr.isspace c = false.
Proof.
  induction t as [|d rest IH]; simpl; [discriminate|].
  destruct (PyStr.isspace d) eqn:Hd; [exact IH|].
  simpl. intros [= <-]. exact Hd.
Qed.

Lemma lstrip_space_blank (t : list N) :
  Forall (fun c => PyStr.isspace c = true) t -> PyStr.lstrip_space t = [].
Proof.
  induction 1 as [|c rest Hc _ IH]; simpl; [reflexivity|].
  rewrite Hc. exact IH.
Qed.

Lemma lstrip_space_fixed (t : list N) :
  (forall c, head t = Some c -> PyStr.isspace c = false) ->
  PyStr.lstrip_space t = t.
Proof.
  destruct t as [|c rest]; [reflexivity|]. intros Hc. simpl.
  rewrite (Hc c eq_refl). reflexivity.
Qed.

Lemma rstrip_space_split (t : list N) :
  exists post,
    t = PyStr.rstrip_space t ++ post
    /\ Forall (fun c => PyStr.isspace c = true) post.
Proof.
  induction t as [|c rest (post & Heq & Hpost)]; simpl.
  - exists []. split; [reflexivity|constructor].
  - destruct (PyStr.rstrip_space rest) as [|d kept] eqn:Hrest.
    + simpl in Heq. subst rest. destruct (PyStr.isspace c) eqn:Hc.
      * exists (c :: post). split; [reflexivity|]. constructor; assumption.
      * exists post. split; [reflexivity|exact Hpost].
    + exists post. split; [|exact Hpost]. simpl. f_equal. exact Heq.
Qed.

Lemma rstrip_space_last (t : list N) (c : N) :
  last (PyStr.rstrip_space t) = Some c -> PyStr.isspace c = false.
Proof.
  induction t as [|d rest IH]; simpl; [discriminate|].
  destruct (PyStr.rstrip_space rest) as [|e kept] eqn:Hrest.
  - destruct (PyStr.isspace d) eqn:Hd; simpl; [discriminate|].
    intros [= <-]. exact Hd.
  - intros Hlast. apply IH. exact Hlast.
Qed.

Lemma rstrip_space_head (t : list N) (c : N) :
  head (PyStr.rstrip_space t) = Some c -> head t = Some c.
Proof.
  destruct t as [|d rest]; simpl; [discriminate|].
  destruct (PyStr.rstrip_space rest) as [|e kept].
  - destruct (PyStr.isspace d); simpl; [discriminate|]. intros H. exact H.
  - simpl. intros H. exact H.
Qed.

Lemma rstrip_space_idem (t : list N) :
  PyStr.rstrip_space (PyStr.rstrip_space t) = PyStr.rstrip_space t.
Proof.
  induction t as [|c rest IH]; [reflexivity|]. simpl.
  destruct (PyStr.rstrip_space rest) as [|d kept] eqn:Hrest.
  - destruct (PyStr.isspace c) eqn:Hc; [reflexivity|]. simpl. rewrite Hc.
    reflexivity.
  - change (PyStr.rstrip_space (c :: d :: kept))
      with (match PyStr.rstrip_space (d :: kept) with
            | [] => if PyStr.isspace c then [] else [c]
            | e :: kept' => c :: e :: kept'
            end).
    rewrite IH. reflexivity.
Qed.

Lemma strip_trims (line : list N) :
  exists pre post,
    line = pre ++ PyStr.strip line ++ post
    /\ Forall (fun c => PyStr.isspace c = true) pre
    /\ Forall (fun c => PyStr.isspace c = true) post
    /\ (forall c, head (PyStr.strip line) = Some c -> PyStr.isspace c = false)
    /\ (forall c, last (PyStr.strip line) = Some c -> PyStr.isspace c = false).
Proof.
  unfold PyStr.strip.
  destruct (lstrip_space_split line) as (pre & Hpre & Hall_pre).
  destruct (rstrip_space_split (PyStr.lstrip_space line))
    as (post & Hpost & Hall_post).
  exists pre, post. repeat split; try assumption.
  - rewrite <- Hpost. exact Hpre.
  - intros c Hc. apply rstrip_space_head in Hc.
    eapply lstrip_space_head. exact Hc.
  - intros c Hc. eapply rstrip_space_last. exact Hc.
Qed.

Lemma strip_blank (line : list N) :
  Forall (fun c => PyStr.isspace c = true) line -> PyStr.strip line = [].
Proof.
  intros Hall. unfold PyStr.strip. rewrite lstrip_space_blank by exact Hall.
  reflexivity.
Qed.

(** ** UTF-8 keeps texts apart *)

Lemma byte_inj (a b : N) :
  (a < 256)%N -> (b < 256)%N -> ascii_of_N a = ascii_of_N b -> a = b.
Proof.
  intros Ha Hb H.
  rewrite <- (N_ascii_embedding a Ha), <- (N_ascii_embedding b Hb), H.
  reflexivity.
Qed.

Ltac euclid c k :=
  pose proof (N.div_mod c k ltac:(lia));
  pose proof (N.mod_lt c k ltac:(lia)).

Ltac utf8_facts c :=
  euclid c 0x40%N; euclid (c / 0x40)%N 0x40%N; euclid (c / 0x1000)%N 0x40%N;
  pose proof (N.Div0.div_div c 0x40 0x40);
  pose proof (N.Div0.div_div c 0x1000 0x40);
  change (0x40 * 0x40)%N with 0x1000%N in *;
  change (0x1000 * 0x40)%N with 0x40000%N in *.

Ltac name_quotients :=
  repeat match goal with
  | H : context [N.div ?a ?b] |- _ =>
      let q := fresh "q" in set (q := N.div a b) in *; clearbody q
  | H : context [N.modulo ?a ?b] |- _ =>
      let r := fresh "r" in set (r := N.modulo a b) in *; clearbody r
  end.

(** The encoding of a code point is never a proper prefix of another's, and
    determines the code point. *)
Lemma utf8_char_inj (c d : N) (s t : string) :
  (c < 0x110000)%N -> (d < 0x110000)%N ->
  PyStr.utf8_char c +:+ s = PyStr.utf8_char d +:+ t -> c = d /\ s = t.
Proof.
  intros Hc Hd. unfold PyStr.utf8_char.
  utf8_facts c. utf8_facts d.
  destruct (N.ltb_spec c 0x80), (N.ltb_spec d 0x80);
  destruct (N.ltb_spec c 0x800), (N.ltb_spec d 0x800);
  destruct (N.ltb_spec c 0x10000), (N.ltb_spec d 0x10000); try lia;
  cbv [String.append]; intros Heq; injection Heq; intros;
  name_quotients;
  repeat match goal with
  | H : ascii_of_N _ = ascii_of_N _ |- _ => apply byte_inj in H; [|lia|lia]
  end;
  try (exfalso; lia); (split; [lia|assumption]).
Qed.

Lemma utf8_char_not_empty (c : N) (s : string) :
  PyStr.utf8_char c +:+ s <> EmptyString.
Proof.
  unfold PyStr.utf8_char.
  destruct (c <? 0x80)%N; [|destruct (c <? 0x800)%N; [|destruct (c <? 0x10000)%N]];
    cbv [String.append]; discriminate.
Qed.

Lemma utf8_inj (a : list N) :
  forall b : list N,
    Forall (fun c => (c < 0x110000)%N) a ->
    Forall (fun c => (c < 0x110000)%N) b ->
    PyStr.utf8 a = PyStr.utf8 b -> a = b.
Proof.
  induction a as [|c a IH]; intros [|d b] Ha Hb; simpl.
  - reflexivity.
  - intros H. symmetry in H. apply utf8_char_not_empty in H. contradiction.
  - intros H. apply utf8_char_not_empty in H. contradiction.
  - intros H. apply Forall_cons in Ha as [Hc Ha]. apply Forall_cons in Hb as [Hd Hb].
    apply utf8_char_inj in H as [-> H]; [|assumption|assumption].
    f_equal. apply IH; assumption.
Qed.

(** ** Loading the URL file *)

(** C7, as the claim states it, fails: a failure to open the file is not the
    only failure that aborts the run.  The file [latin1.txt] opens, and
    [main] still ends with an exception, the [UnicodeDecodeError] that the
    iteration over the file raises. *)
Lemma open_failure_is_not_the_only_abort :
  (forall e, Scenario.one_file "latin1.txt" <> Wing.OpenRaises e)
  /\ Wing.main Scenario.one_file "latin1.txt"
     = Wing.Uncaught (Wing.ReadFailed Wing.UnicodeDecodeError)
  /\ ~ (forall (fs : Wing.filesystem) (input : string) (e : Wing.load_exception),
          Wing.main fs input = Wing.Uncaught e ->
          exists oe, fs input = Wing.OpenRaises oe).
Proof.
  split; [discriminate|]. split; [reflexivity|].
  intros Honly.
  destruct (Honly Scenario.one_file "latin1.txt"
              (Wing.ReadFailed Wing.UnicodeDecodeError) eq_refl) as [oe Hoe].
  discriminate Hoe.
Qed.

(** C7, amended.  [main] raises exactly when the URL file cannot be loaded:
    [open] raises, or the file opens and the iteration over it raises.  In
    both cases the exception leaves [main] before [get_queue] and
    [check_website_status] are reached, so without a queue and without a
    thread.  If the file is read to its end, [check_website_status] is
    entered with the stripped lines queued, and in no run of the pool does
    an exception leave a worker. *)
Theorem only_load_failure_aborts (fs : Wing.filesystem) (input : string) :
  (forall oe, fs input = Wing.OpenRaises oe ->
     Wing.main fs input = Wing.Uncaught (Wing.OpenFailed oe))
  /\ (forall yielded re, fs input = Wing.ReadRaises yielded re ->
        Wing.main fs input = Wing.Uncaught (Wing.ReadFailed re))
  /\ (forall e, Wing.main fs input = Wing.Uncaught e ->
        (exists oe, fs input = Wing.OpenRaises oe /\ e = Wing.OpenFailed oe)
        \/ (exists yielded re,
              fs input = Wing.ReadRaises yielded re /\ e = Wing.ReadFailed re))
  /\ (forall file, fs input = Wing.Yields file ->
        Wing.main fs input
        = Wing.Entered (Wing.initial (PyStr.utf8 <$> (PyStr.strip <$> file))))
  /\ (forall urls sched tr s,
        Wing.run (Wing.initial urls) sched = Some (tr, s) ->
        Forall (fun pc => pc <> Wing.Died) (Wing.st_threads s)
        /\ forall i, Wing.EvValueError i ∉ tr).
Proof.
  unfold Wing.main, Wing.load_urls_from_file.
  split; [|split; [|split; [|split]]].
  - intros oe ->. reflexivity.
  - intros yielded re ->. reflexivity.
  - intros e. destruct (fs input) as [oe|yielded re|file]; [| |discriminate].
    + intros [= <-]. left. exists oe. split; reflexivity.
    + intros [= <-]. right. exists yielded, re. split; reflexivity.
  - intros file ->. reflexivity.
  - intros urls sched tr s Hrun. split.
    + eapply Wing.inv_alive, invariant_reachable. exact Hrun.
    + intros i. eapply never_value_error. exact Hrun.
Qed.

Lemma only_load_failure_aborts_witness :
  Scenario.one_file "missing.txt" = Wing.OpenRaises Wing.FileNotFoundError
  /\ Wing.main Scenario.one_file "missing.txt"
     = Wing.Uncaught (Wing.OpenFailed Wing.FileNotFoundError).
Proof.
  split; [reflexivity|].
  apply (only_load_failure_aborts Scenario.one_file "missing.txt").
  reflexivity.
Defined.

(** C8. Loading keeps every line of the file, in order, as one item: the
    line without its leading and trailing whitespace, where whitespace is
    every code point that [str.isspace] accepts.  Nothing is filtered, so a
    blank line gives the empty item.  [main] then enters the pool with the
    items queued in that same order, each counted, and no thread started;
    items that differ as texts differ in the queue. *)
Theorem load_urls_keeps_every_line (fs : Wing.filesystem) (filename : string)
    (file : list (list N)) :
  fs filename = Wing.Yields file ->
  Wing.load_urls_from_file fs filename = inr (PyStr.strip <$> file)
  /\ length (PyStr.strip <$> file) = length file
  /\ (forall i line, file !! i = Some line ->
        (PyStr.strip <$> file) !! i = Some (PyStr.strip line))
  /\ (forall line,
        exists pre post,
          line = pre ++ PyStr.strip line ++ post
          /\ Forall (fun c => PyStr.isspace c = true) pre
          /\ Forall (fun c => PyStr.isspace c = true) post
          /\ (forall c, head (PyStr.strip line) = Some c ->
                PyStr.isspace c = false)
          /\ (forall c, last (PyStr.strip line) = Some c ->
                PyStr.isspace c = false))
  /\ (forall line, Forall (fun c => PyStr.isspace c = true) line ->
        PyStr.strip line = [])
  /\ Wing.main fs filename
     = Wing.Entered
         (Wing.State
            (PyQueue.Make (PyStr.utf8 <$> (PyStr.strip <$> file))
               (Z.of_nat (length file)))
            [] (Wing.Starting 0) [])
  /\ (forall a b,
        Forall (fun c => (c < 0x110000)%N) a ->
        Forall (fun c => (c < 0x110000)%N) b ->
        PyStr.utf8 a = PyStr.utf8 b -> a = b).
Proof.
  intros Hfile. unfold Wing.main, Wing.load_urls_from_file. rewrite Hfile.
  rewrite get_queue_spec, !length_fmap.
  split; [reflexivity|]. split; [reflexivity|]. split; [|split; [|split; [|split]]].
  - intros i line Hi. rewrite list_lookup_fmap, Hi. reflexivity.
  - apply strip_trims.
  - apply strip_blank.
  - reflexivity.
  - intros a b. apply utf8_inj.
Qed.

Lemma load_urls_keeps_every_line_witness :
  Wing.load_urls_from_file Scenario.one_file "urls.txt"
  = inr [PyStr.codes "http://example.com"; PyStr.codes "not-a-url"; []]
  /\ Wing.main Scenario.one_file "urls.txt"
     = Wing.Entered
         (Wing.State (PyQueue.Make ["http://example.com"; "not-a-url"; EmptyString] 3)
            [] (Wing.Starting 0) []).
Proof.
  destruct (load_urls_keeps_every_line Scenario.one_file "urls.txt" _ eq_refl)
    as (Hload & _ & _ & _ & _ & Hmain & _).
  split; [exact Hload|exact Hmain].
Defined.

(** C9. [check_website_status] takes the queue and nothing else; it starts
    the threads numbered 0, 1, 2 and 3, one per iteration of [range(4)].
    There are never more than four worker threads, and exactly four from the
    moment the main thread reaches [url_queue.join()]. *)
Theorem four_worker_threads (urls : list string) (sched : list Wing.action)
    (tr : list Wing.event) (s : Wing.state) :
  Wing.run (Wing.initial urls) sched = Some (tr, s) ->
  length (Wing.st_threads s) <= 4
  /\ Wing.starts tr = seq 0 (length (Wing.st_threads s))
  /\ match Wing.st_main s with
     | Wing.Starting n => length (Wing.st_threads s) = n
     | _ => length (Wing.st_threads s) = 4
     end.
Proof.
  intros Hrun. pose proof (invariant_reachable _ _ _ _ Hrun) as Hinv.
  pose proof (Wing.inv_main _ _ _ Hinv) as Hmain.
  unfold Wing.main_invariant in Hmain.
  split; [|split; [exact (Wing.inv_started _ _ _ Hinv)|]];
    destruct (Wing.st_main s); split_ands; lia.
Qed.

Lemma four_worker_threads_witness :
  exists tr s,
    Wing.run (Wing.initial Scenario.urls) Scenario.complete_run = Some (tr, s)
    /\ length (Wing.st_threads s) <= 4
    /\ Wing.starts tr = [0; 1; 2; 3].
Proof.
  eexists _, _. split; [vm_compute; reflexivity|].
  edestruct (four_worker_threads Scenario.urls Scenario.complete_run)
    as (Hle & Hstarts & _); [vm_compute; reflexivity|].
  split; [exact Hle|exact Hstarts].
Defined.

(** The part of the pool's contract that does hold of every run: when
    [check_website_status] has returned, every worker has returned from
    [get_status]. *)
Lemma returned_after_all_workers (urls : list string) (sched : list Wing.action)
    (tr : list Wing.event) (s : Wing.state) :
  Wing.run (Wing.initial urls) sched = Some (tr, s) ->
  Wing.st_main s = Wing.Returned ->
  length (Wing.st_threads s) = 4
  /\ Forall (fun pc => pc = Wing.Finished) (Wing.st_threads s).
Proof.
  intros Hrun Hret. pose proof (invariant_reachable _ _ _ _ Hrun) as Hinv.
  pose proof (Wing.inv_main _ _ _ Hinv) as Hmain.
  unfold Wing.main_invariant in Hmain. rewrite Hret in Hmain.
  destruct Hmain as (Hlen & _ & Hjoined). split; [exact Hlen|].
  apply joined_all_finished; [exact Hjoined|exact (Wing.inv_alive _ _ _ Hinv)].
Qed.

(** ** Further properties of the string functions *)

Lemma append_cancel_l (p a b : string) : p +:+ a = p +:+ b -> a = b.
Proof.
  induction p as [|c p IH]; [intros H; exact H|].
  rewrite !append_cons. intros [= H]. exact (IH H).
Qed.

Lemma append_newline_cancel (a b : string) :
  a +:+ PyStr.newline = b +:+ PyStr.newline -> a = b.
Proof.
  revert b. induction a as [|c a IH]; intros [|d b].
  - reflexivity.
  - rewrite append_nil, append_cons. unfold PyStr.newline.
    intros [= _ H]. destruct b; discriminate H.
  - rewrite append_nil, append_cons. unfold PyStr.newline.
    intros [= _ H]. destruct a; discriminate H.
  - rewrite !append_cons. intros [= -> H]. f_equal. exact (IH b H).
Qed.

(** X1. What [load_urls_from_file] returns is clean: stripping an item again
    changes nothing.  A line gives the empty item exactly when it holds
    nothing but whitespace, Unicode whitespace included. *)
Theorem strip_is_idempotent_and_blank_iff (line : list N) :
  PyStr.strip (PyStr.strip line) = PyStr.strip line
  /\ (PyStr.strip line = []
      <-> Forall (fun c => PyStr.isspace c = true) line).
Proof.
  split.
  - unfold PyStr.strip.
    rewrite (lstrip_space_fixed
               (PyStr.rstrip_space (PyStr.lstrip_space line))).
    + apply rstrip_space_idem.
    + intros c Hc. apply rstrip_space_head in Hc.
      eapply lstrip_space_head. exact Hc.
  - split.
    + unfold PyStr.strip. intros Hempty.
      destruct (lstrip_space_split line) as (pre & Hpre & Hall_pre).
      destruct (rstrip_space_split (PyStr.lstrip_space line))
        as (post & Hpost & Hall_post).
      rewrite Hempty in Hpost. simpl in Hpost. rewrite Hpost in Hpre.
      rewrite Hpre. apply Forall_app. split; assumption.
    + apply strip_blank.
Qed.

(** X2. A line of output determines its stream's clause and its URL: two
    writes give the same stream and text only if the clause and the URL are
    the same. *)
Theorem clause_write_injective (c c' : Wing.clause) (url url' : string) :
  Wing.clause_write c url = Wing.clause_write c' url' ->
  c = c' /\ url = url'.
Proof.
  destruct c, c'; unfold Wing.clause_write; intros [= H]; try discriminate H.
  all: try (split; [reflexivity|];
            eapply append_newline_cancel, append_cancel_l; exact H).
Qed.

Lemma clause_write_injective_witness :
  Wing.ExceptHTTPError = Wing.ExceptHTTPError
  /\ "http://example.com" = "http://example.com".
Proof.
  apply (clause_write_injective Wing.ExceptHTTPError Wing.ExceptHTTPError
           "http://example.com" "http://example.com").
  reflexivity.
Defined.

(** ** [seeker.py], the command *)

(** Neither template makes [format] raise, whatever the path holds, braces
    included: the text is the number, a colon and the path, or the path
    alone, then a blank and a newline. *)
Lemma write_to_stdout_text (index : bool) (file_count : nat) (file_path : string) :
  SeekerCli.write_to_stdout file_count file_path
    (SeekerCli.get_output_string_template index)
  = Some (if index
          then PyFormat.str_int file_count +:+ ": " +:+ file_path +:+ " "
               +:+ PyStr.newline
          else file_path +:+ " " +:+ PyStr.newline).
Proof. destruct index; reflexivity. Qed.

Lemma report_files_spec (index : bool) (files : list string) :
  forall (file_count : nat) (written : list string),
    SeekerCli.report_files (SeekerCli.get_output_string_template index)
      files file_count written
    = Some (file_count + length files,
            written
            ++ zip_with
                 (fun k file_path =>
                    if index
                    then PyFormat.str_int k +:+ ": " +:+ file_path +:+ " "
                         +:+ PyStr.newline
                    else file_path +:+ " " +:+ PyStr.newline)
                 (seq (file_count + 1) (length files)) files).
Proof.
  induction files as [|file_path files IH]; intros file_count written.
  - simpl. rewrite app_nil_r, Nat.add_0_r. reflexivity.
  - cbn [SeekerCli.report_files]. rewrite write_to_stdout_text, IH.
    cbn [length seq zip_with]. rewrite <- app_assoc. cbn [app].
    replace (file_count + 1 + 1) with (S (file_count + 1)) by lia.
    replace (file_count + 1 + length files) with (file_count + S (length files))
      by lia.
    reflexivity.
Qed.

(** X3. When the search finds files, [main] writes one line per file to
    stdout, in the order found and numbered from 1 when [--index] is given,
    writes nothing to stderr and ends normally. *)
Theorem seeker_main_lists_files (glob : SeekerCli.globber)
    (args_extension : string) (args_index : bool) :
  SeekerCli.search_for_files glob (Seeker.sanitize_extension args_extension) <> [] ->
  let files :=
    SeekerCli.search_for_files glob (Seeker.sanitize_extension args_extension) in
  SeekerCli.main glob args_extension args_index
  = SeekerCli.Result
      (zip_with
         (fun k file_path =>
            if args_index
            then PyFormat.str_int k +:+ ": " +:+ file_path +:+ " "
                 +:+ PyStr.newline
            else file_path +:+ " " +:+ PyStr.newline)
         (seq 1 (length files)) files)
      [] (SeekerCli.Exit 0).
Proof.
  intros Hfound files. unfold SeekerCli.main. fold files.
  rewrite report_files_spec. cbn [app Nat.add].
  destruct (length files) as [|n] eqn:Hlen; [|reflexivity].
  apply length_zero_iff_nil in Hlen. contradiction.
Qed.

Lemma seeker_main_lists_files_witness :
  SeekerCli.main SeekerScenario.two_files ".py" true
  = SeekerCli.Result
      ["1: /repo/seeker.py " +:+ PyStr.newline;
       "2: /repo/pkg/wing.py " +:+ PyStr.newline]
      [] (SeekerCli.Exit 0).
Proof.
  apply (seeker_main_lists_files SeekerScenario.two_files ".py" true).
  discriminate.
Defined.

(** X4. When the search finds nothing, [main] writes nothing to stdout, one
    message to stderr and exits with status 1.  The message names the
    extension as it was typed, leading dots included, after the dot of the
    message itself. *)
Theorem seeker_main_reports_no_files (glob : SeekerCli.globber)
    (args_extension : string) (args_index : bool) :
  SeekerCli.search_for_files glob (Seeker.sanitize_extension args_extension) = [] ->
  SeekerCli.main glob args_extension args_index
  = SeekerCli.Result []
      ["Error: No Files Found with extension ." +:+ args_extension]
      (SeekerCli.Exit 1).
Proof.
  intros Hnone. unfold SeekerCli.main. rewrite Hnone.
  destruct args_index; reflexivity.
Qed.

Lemma seeker_main_reports_no_files_witness :
  SeekerCli.main SeekerScenario.two_files ".txt" false
  = SeekerCli.Result []
      ["Error: No Files Found with extension ..txt"] (SeekerCli.Exit 1).
Proof.
  apply (seeker_main_reports_no_files SeekerScenario.two_files ".txt" false).
  reflexivity.
Defined.

Lemma sanitize_extension_drops_dots (n : nat) (extension : string) :
  Seeker.sanitize_extension (PyStr.replicate_char n "."%char +:+ extension)
  = Seeker.sanitize_extension extension.
Proof.
  induction n as [|n IH]; [reflexivity|]. simpl. rewrite append_cons.
  exact IH.
Qed.

(** X5. Leading dots on the extension change neither the pattern searched
    nor the listing: [main] writes the same lines to stdout and ends with the
    same status whether the extension is typed with dots or without, and it
    never ends with an exception from [format]. *)
Theorem seeker_main_ignores_leading_dots (glob : SeekerCli.globber) (n : nat)
    (extension : string) (args_index : bool) :
  let dotted := PyStr.replicate_char n "."%char +:+ extension in
  SeekerCli.search_for_files glob (Seeker.sanitize_extension dotted)
  = SeekerCli.search_for_files glob (Seeker.sanitize_extension extension)
  /\ SeekerCli.stdout (SeekerCli.main glob dotted args_index)
     = SeekerCli.stdout (SeekerCli.main glob extension args_index)
  /\ SeekerCli.ended (SeekerCli.main glob dotted args_index)
     = SeekerCli.ended (SeekerCli.main glob extension args_index)
  /\ SeekerCli.ended (SeekerCli.main glob extension args_index)
     <> SeekerCli.FormatRaised.
Proof.
  intros dotted. unfold dotted.
  rewrite sanitize_extension_drops_dots. split; [reflexivity|].
  unfold SeekerCli.main. rewrite sanitize_extension_drops_dots.
  rewrite report_files_spec.
  destruct (Nat.eqb _ 0); repeat split; discriminate.
Qed.

(** ** Further properties of the pool *)

(** A property of states that every step keeps holds after every run. *)
Lemma run_preserves (P : Wing.state -> Prop) :
  (forall s a e s', P s -> Wing.step s a = Some (e, s') -> P s') ->
  forall sched s tr s',
    P s -> Wing.run s sched = Some (tr, s') -> P s'.
Proof.
  intros Hstep. induction sched as [|a sched IH]; intros s tr s' HP; simpl.
  - intros [= <- <-]. exact HP.
  - destruct (Wing.step s a) as [[e s1]|] eqn:Ha; [|discriminate].
    destruct (Wing.run s1 sched) as [[es s2]|] eqn:Hrun; [|discriminate].
    intros [= <- <-]. eapply IH; [|exact Hrun]. eapply Hstep; eassumption.
Qed.

(** With nothing queued at the start, a worker only ever tests the queue
    and returns. *)
Lemma no_url_threads (sched : list Wing.action) (tr : list Wing.event)
    (s : Wing.state) :
  Wing.run (Wing.initial []) sched = Some (tr, s) ->
  PyQueue.queue (Wing.st_queue s) = []
  /\ Forall (fun pc => pc = Wing.AtWhile \/ pc = Wing.Finished) (Wing.st_threads s).
Proof.
  apply (run_preserves
           (fun s => PyQueue.queue (Wing.st_queue s) = []
                     /\ Forall (fun pc => pc = Wing.AtWhile \/ pc = Wing.Finished)
                          (Wing.st_threads s))).
  - clear. intros [[items n] pcs m out] a e s' [Hq Hpcs]. simpl in Hq. subst items.
    destruct a as [|i net]; simpl.
    + unfold Wing.check_website_status. simpl. destruct m as [k| |k|].
      * destruct (Nat.ltb k 4); intros [= <- <-]; simpl; split; auto.
        apply Forall_app. split; [exact Hpcs|]. repeat constructor.
      * destruct (PyQueue.join_returns _); [|discriminate].
        intros [= <- <-]. simpl. auto.
      * destruct (pcs !! k) as [pc|]; [destruct (Wing.is_alive pc)|];
          try discriminate; intros [= <- <-]; simpl; auto.
      * discriminate.
    + unfold Wing.get_status. simpl.
      destruct (pcs !! i) as [pc|] eqn:Hpc; [|discriminate]. simpl.
      rewrite Forall_lookup in Hpcs.
      destruct (Hpcs i pc Hpc) as [-> | ->]; [|discriminate].
      simpl. intros [= <- <-]. simpl. split; [reflexivity|].
      apply Forall_insert; [apply Forall_lookup; exact Hpcs|]. auto.
  - split; [reflexivity|constructor].
Qed.

(** In a state where no thread can move, the main thread has returned, or
    it waits in [thread.join()] for a worker that waits in [q.get()]. *)
Lemma quiescent_cases (urls : list string) (tr : list Wing.event) (s : Wing.state) :
  Wing.invariant urls tr s -> Wing.quiescent s ->
  Wing.st_main s = Wing.Returned
  \/ exists k,
       Wing.st_main s = Wing.Joining k
       /\ Wing.st_threads s !! k = Some Wing.AtGet
       /\ PyQueue.queue (Wing.st_queue s) = [].
Proof.
  intros Hinv Hq. pose proof (quiescent_drained urls tr s Hinv Hq) as Hzero.
  pose proof (Hq Wing.RunMain) as Hmain.
  destruct s as [[items n] pcs m out]. simpl in *. subst n.
  unfold Wing.check_website_status in Hmain. simpl in Hmain.
  destruct m as [k| |k|].
  - destruct (Nat.ltb k 4); discriminate.
  - discriminate.
  - right. exists k. destruct (pcs !! k) as [pc|] eqn:Hk; [|discriminate].
    destruct (Wing.is_alive pc) eqn:Halive; [|discriminate].
    specialize (Hq (Wing.RunWorker k Scenario.ok)). simpl in Hq.
    unfold Wing.get_status in Hq. simpl in Hq. rewrite Hk in Hq. simpl in Hq.
    destruct pc; try discriminate.
    + destruct items; discriminate.
    + destruct items; [auto|discriminate].
  - left. reflexivity.
Qed.

(** X6. With no URL in the list, whatever the schedule: nothing is taken
    from the queue, nothing is written, the run has at most 19 steps, and
    once no thread can move [check_website_status] has returned. *)
Theorem no_urls_no_output_no_hang (sched : list Wing.action)
    (tr : list Wing.event) (s : Wing.state) :
  Wing.run (Wing.initial []) sched = Some (tr, s) ->
  Wing.gets tr = []
  /\ Wing.st_out s = []
  /\ length sched <= 19
  /\ (Wing.quiescent s -> Wing.st_main s = Wing.Returned).
Proof.
  intros Hrun. pose proof (invariant_reachable _ _ _ _ Hrun) as Hinv.
  assert (Wing.gets tr = []) as Hgets.
  { pose proof (Wing.inv_fifo _ _ _ Hinv) as Hfifo. symmetry in Hfifo.
    apply app_eq_nil in Hfifo as [Hg _]. apply fmap_nil_inv in Hg. exact Hg. }
  split; [exact Hgets|]. split; [|split].
  - pose proof (Wing.inv_reported _ _ _ Hinv) as Hrep. rewrite Hgets in Hrep.
    symmetry in Hrep. apply Permutation_nil_r in Hrep.
    apply app_eq_nil in Hrep as [Hw _]. apply fmap_nil_inv in Hw.
    rewrite (Wing.inv_out _ _ _ Hinv), Hw. reflexivity.
  - pose proof (run_bounded _ _ _ _ Hrun) as Hb.
    rewrite steps_left_initial in Hb. simpl in Hb. lia.
  - intros Hq. destruct (quiescent_cases _ _ _ Hinv Hq) as [Hret|(k & _ & Hk & _)];
      [exact Hret|].
    destruct (no_url_threads _ _ _ Hrun) as [_ Hpcs].
    rewrite Forall_lookup in Hpcs.
    destruct (Hpcs k _ Hk) as [H|H]; discriminate H.
Qed.

Lemma no_urls_no_output_no_hang_witness :
  exists tr s,
    Wing.run (Wing.initial []) (Sequential.schedule []) = Some (tr, s)
    /\ Wing.st_main s = Wing.Returned
    /\ Wing.gets tr = []
    /\ Wing.st_out s = [].
Proof.
  eexists _, _. split; [vm_compute; reflexivity|]. split; [reflexivity|].
  edestruct (no_urls_no_output_no_hang (Sequential.schedule []))
    as (Hgets & Hout & _); [vm_compute; reflexivity|].
  split; [exact Hgets|exact Hout].
Defined.

(** Worker 0 goes once round its loop. *)
Lemma one_url_run (url : string) (urls : list string) (n : Z)
    (rest : list Wing.worker_pc) (m : Wing.main_pc)
    (out : list (Wing.stream * string)) (net : Wing.get_result) :
  (1 <= n)%Z ->
  exists tr,
    Wing.run (Wing.State (PyQueue.Make (url :: urls) n) (Wing.AtWhile :: rest) m out)
      (Sequential.one_url net)
    = Some (tr,
            Wing.State (PyQueue.Make urls (n - 1)) (Wing.AtWhile :: rest) m
              (out ++ [Wing.clause_write
                         (Wing.select_clause (Wing.try_block net)) url])).
Proof.
  intros Hn. unfold Sequential.one_url. cbn. unfold PyQueue.task_done. cbn.
  destruct (n - 1 <? 0)%Z eqn:Hneg; [apply Z.ltb_lt in Hneg; lia|].
  cbn. eexists. reflexivity.
Qed.

(** Worker 0 takes the URLs at the head of the queue, one after the other. *)
Lemma drain_run (urls : list string) :
  forall (more : list string) (nets : list Wing.get_result) (n : Z)
         (rest : list Wing.worker_pc) (m : Wing.main_pc)
         (out : list (Wing.stream * string)),
    length nets = length urls ->
    (Z.of_nat (length urls) <= n)%Z ->
    exists tr,
      Wing.run
        (Wing.State (PyQueue.Make (urls ++ more) n) (Wing.AtWhile :: rest) m out)
        (nets ≫= Sequential.one_url)
      = Some (tr,
              Wing.State (PyQueue.Make more (n - Z.of_nat (length urls)))
                (Wing.AtWhile :: rest) m (out ++ Sequential.lines nets urls)).
Proof.
  induction urls as [|url urls IH]; intros more nets n rest m out Hlen Hn.
  - destruct nets; [|discriminate]. exists []. simpl.
    rewrite app_nil_r, Z.sub_0_r. reflexivity.
  - destruct nets as [|net nets]; [discriminate|]. injection Hlen as Hlen.
    rewrite length_cons in *.
    destruct (one_url_run url (urls ++ more) n rest m out net ltac:(lia))
      as [tr1 Hrun1].
    destruct (IH more nets (n - 1)%Z rest m
                (out ++ [Wing.clause_write
                           (Wing.select_clause (Wing.try_block net)) url])
                Hlen ltac:(lia)) as [tr2 Hrun2].
    exists (tr1 ++ tr2). rewrite bind_cons.
    rewrite (run_app _ (Sequential.one_url net) (nets ≫= Sequential.one_url)).
    cbn [app]. rewrite Hrun1, Hrun2, <- app_assoc.
    replace (n - 1 - Z.of_nat (length urls))%Z
      with (n - Z.of_nat (S (length urls)))%Z by lia.
    reflexivity.
Qed.

Lemma start_pool_run (urls : list string) :
  Wing.run (Wing.initial urls) Scenario.start_pool
  = Some ([Wing.EvStart 0; Wing.EvStart 1; Wing.EvStart 2; Wing.EvStart 3;
           Wing.EvRangeDone],
          Wing.State (PyQueue.Make urls (Z.of_nat (length urls)))
            [Wing.AtWhile; Wing.AtWhile; Wing.AtWhile; Wing.AtWhile]
            Wing.AtQueueJoin []).
Proof. unfold Wing.initial. rewrite get_queue_spec. reflexivity. Qed.

(** X8. The pool can always finish.  For every list of URLs and every
    answer of the network, the schedule in which worker 0 alone drains the
    queue ends with [check_website_status] returned, all four workers
    returned, the queue empty and acknowledged, and one line per URL in the
    order of the list. *)
Theorem sequential_run_completes (urls : list string)
    (nets : list Wing.get_result) :
  length nets = length urls ->
  exists tr,
    Wing.run (Wing.initial urls) (Sequential.schedule nets)
    = Some (tr,
            Wing.State (PyQueue.Make [] 0)
              [Wing.Finished; Wing.Finished; Wing.Finished; Wing.Finished]
              Wing.Returned (Sequential.lines nets urls)).
Proof.
  intros Hlen. unfold Sequential.schedule.
  destruct (drain_run urls [] nets (Z.of_nat (length urls))
              [Wing.AtWhile; Wing.AtWhile; Wing.AtWhile] Wing.AtQueueJoin []
              Hlen ltac:(lia)) as [tr Hdrain].
  rewrite Z.sub_diag, app_nil_r in Hdrain.
  rewrite run_app, start_pool_run.
  rewrite (run_app _ (nets ≫= Sequential.one_url)
             (Sequential.all_return ++ Sequential.join_all)), Hdrain.
  rewrite app_nil_l. eexists. reflexivity.
Qed.

Lemma sequential_run_completes_witness :
  exists tr,
    Wing.run (Wing.initial Scenario.urls)
      (Sequential.schedule [Scenario.not_found; Scenario.missing_schema])
    = Some (tr,
            Wing.State (PyQueue.Make [] 0)
              [Wing.Finished; Wing.Finished; Wing.Finished; Wing.Finished]
              Wing.Returned
              [Wing.clause_write Wing.ExceptHTTPError "http://example.com";
               Wing.clause_write Wing.ExceptException "not-a-url"]).
Proof.
  apply (sequential_run_completes Scenario.urls
           [Scenario.not_found; Scenario.missing_schema]).
  reflexivity.
Defined.

(** The race for the last URL, from the state in which it is the only one
    queued. *)
Lemma race_for_last_run (last : string) (out : list (Wing.stream * string))
    (net : Wing.get_result) :
  Wing.run
    (Wing.State (PyQueue.Make [last] 1)
       [Wing.AtWhile; Wing.AtWhile; Wing.AtWhile; Wing.AtWhile]
       Wing.AtQueueJoin out)
    (Sequential.race_for_last net)
  = Some ([Wing.EvEmpty 0 false; Wing.EvEmpty 1 false; Wing.EvGet 0 last;
           Wing.EvRequest 0 last net;
           Wing.EvWrite 0 (Wing.select_clause (Wing.try_block net)) last;
           Wing.EvTaskDone 0; Wing.EvEmpty 0 true; Wing.EvEmpty 2 true;
           Wing.EvEmpty 3 true; Wing.EvQueueJoined; Wing.EvThreadJoined 0],
          Wing.State (PyQueue.Make [] 0)
            [Wing.Finished; Wing.AtGet; Wing.Finished; Wing.Finished]
            (Wing.Joining 1)
            (out ++ [Wing.clause_write
                       (Wing.select_clause (Wing.try_block net)) last])).
Proof. vm_compute. reflexivity. Qed.

Lemma blocked_state_quiescent (out : list (Wing.stream * string)) :
  Wing.quiescent
    (Wing.State (PyQueue.Make [] 0)
       [Wing.Finished; Wing.AtGet; Wing.Finished; Wing.Finished]
       (Wing.Joining 1) out).
Proof.
  intros [|i net]; [reflexivity|].
  do 4 (destruct i as [|i]; [reflexivity|]). reflexivity.
Qed.

(** X12. The hang of [check_website_status] needs no special list: for
    every non-empty list of URLs and whatever the network answers, there is
    a schedule after which no thread can move although the main thread has
    not returned.  On it two workers race for the last URL; every URL has
    its line all the same. *)
Theorem every_nonempty_list_can_hang (urls : list string) (last : string)
    (nets : list Wing.get_result) (net : Wing.get_result) :
  length nets = length urls ->
  exists tr s,
    Wing.run (Wing.initial (urls ++ [last])) (Sequential.racing_schedule nets net)
    = Some (tr, s)
    /\ Wing.quiescent s
    /\ Wing.st_main s = Wing.Joining 1
    /\ Wing.st_threads s
       = [Wing.Finished; Wing.AtGet; Wing.Finished; Wing.Finished]
    /\ Wing.st_out s
       = Sequential.lines nets urls
         ++ [Wing.clause_write (Wing.select_clause (Wing.try_block net)) last].
Proof.
  intros Hlen. unfold Sequential.racing_schedule.
  destruct (drain_run urls [last] nets (Z.of_nat (length (urls ++ [last])))
              [Wing.AtWhile; Wing.AtWhile; Wing.AtWhile] Wing.AtQueueJoin []
              Hlen ltac:(rewrite length_app; lia)) as [tr Hdrain].
  replace (Z.of_nat (length (urls ++ [last])) - Z.of_nat (length urls))%Z
    with 1%Z in Hdrain by (rewrite length_app; simpl; lia).
  rewrite run_app, start_pool_run.
  rewrite (run_app _ (nets ≫= Sequential.one_url) (Sequential.race_for_last net)),
    Hdrain.
  rewrite app_nil_l, race_for_last_run.
  eexists _, _. split; [reflexivity|].
  split; [apply blocked_state_quiescent|].
  repeat split.
Qed.

Lemma every_nonempty_list_can_hang_witness :
  exists tr s,
    Wing.run (Wing.initial (["http://example.com"] ++ ["not-a-url"]))
      (Sequential.racing_schedule [Scenario.ok] Scenario.missing_schema)
    = Some (tr, s)
    /\ Wing.quiescent s
    /\ Wing.st_main s = Wing.Joining 1.
Proof.
  edestruct (every_nonempty_list_can_hang ["http://example.com"] "not-a-url"
               [Scenario.ok] Scenario.missing_schema)
    as (tr & s & Hrun & Hq & Hmain & _); [reflexivity|].
  exists tr, s. repeat split; assumption.
Defined.

Lemma length_omap_le {A B : Type} (f : A -> option B) (l : list A) :
  length (omap f l) <= length l.
Proof.
  induction l as [|x l IH]; [reflexivity|]. csimpl.
  destruct (f x); simpl; lia.
Qed.

Lemma owes_line_le_holds (pcs : list Wing.worker_pc) :
  length (omap Wing.owes_line pcs) <= length (omap Wing.holds pcs).
Proof.
  induction pcs as [|pc pcs IH]; [reflexivity|]. csimpl.
  destruct pc; simpl; lia.
Qed.

Lemma threads_at_most_four (urls : list string) (tr : list Wing.event)
    (s : Wing.state) :
  Wing.invariant urls tr s -> length (Wing.st_threads s) <= 4.
Proof.
  intros Hinv. pose proof (Wing.inv_main _ _ _ Hinv) as Hmain.
  unfold Wing.main_invariant in Hmain.
  destruct (Wing.st_main s); split_ands; lia.
Qed.

(** X9. At every point of every run at most four URLs are in progress, that
    is taken from the queue and not yet acknowledged.  The counter of the
    queue stays between zero and the number of URLs, and every URL is
    either still queued, in progress, or acknowledged. *)
Theorem at_most_four_in_progress (urls : list string)
    (sched : list Wing.action) (tr : list Wing.event) (s : Wing.state) :
  Wing.run (Wing.initial urls) sched = Some (tr, s) ->
  length (omap Wing.holds (Wing.st_threads s)) <= 4
  /\ (0 <= PyQueue.unfinished_tasks (Wing.st_queue s) <= Z.of_nat (length urls))%Z
  /\ length (PyQueue.queue (Wing.st_queue s))
     + length (omap Wing.holds (Wing.st_threads s))
     + length (Wing.acks tr)
     = length urls.
Proof.
  intros Hrun. pose proof (invariant_reachable _ _ _ _ Hrun) as Hinv.
  pose proof (threads_at_most_four _ _ _ Hinv) as Hfour.
  pose proof (length_omap_le Wing.holds (Wing.st_threads s)) as Hle.
  pose proof (Wing.inv_unfinished _ _ _ Hinv) as Hunf.
  pose proof (Wing.inv_acked _ _ _ Hinv) as Hack.
  pose proof (f_equal length (Wing.inv_fifo _ _ _ Hinv)) as Hfifo.
  rewrite length_app, length_fmap in Hfifo.
  repeat split; lia.
Qed.

Lemma at_most_four_in_progress_witness :
  exists tr s,
    Wing.run (Wing.initial Scenario.urls) Scenario.first_taken = Some (tr, s)
    /\ length (omap Wing.holds (Wing.st_threads s)) <= 4
    /\ length (PyQueue.queue (Wing.st_queue s))
       + length (omap Wing.holds (Wing.st_threads s))
       + length (Wing.acks tr)
       = length Scenario.urls.
Proof.
  eexists _, _. split; [vm_compute; reflexivity|].
  edestruct (at_most_four_in_progress Scenario.urls Scenario.first_taken)
    as (Hfour & _ & Hsum); [vm_compute; reflexivity|].
  split; [exact Hfour|exact Hsum].
Defined.

(** X10. All output is written before [url_queue.join()] returns: if the
    join returns at position [k] of the trace, the lines written before it
    are already the whole output of the run, one per URL, and nothing is
    written afterwards. *)
Theorem output_complete_at_queue_join (urls : list string)
    (sched : list Wing.action) (tr : list Wing.event) (s : Wing.state) (k : nat) :
  Wing.run (Wing.initial urls) sched = Some (tr, s) ->
  tr !! k = Some Wing.EvQueueJoined ->
  Wing.st_out s = Wing.render <$> Wing.writes (take k tr)
  /\ Wing.writes (drop k tr) = []
  /\ length (Wing.st_out s) = length urls.
Proof.
  intros Hrun Hk. pose proof (invariant_reachable _ _ _ _ Hrun) as Hinv.
  pose proof Hrun as Hsplit. rewrite <- (take_drop k tr) in Hsplit.
  apply run_split in Hsplit as (sched1 & sched2 & s1 & -> & Hrun1 & Hrun2).
  rewrite (drop_S _ _ _ Hk) in Hrun2.
  destruct sched2 as [|a sched2]; simpl in Hrun2; [discriminate|].
  destruct (Wing.step s1 a) as [[e s2]|] eqn:Hstep; [|discriminate].
  destruct (Wing.run s2 sched2) as [[es s3]|]; [|discriminate].
  injection Hrun2 as -> _ _.
  apply step_queue_joined in Hstep as [_ Hzero].
  pose proof (invariant_reachable _ _ _ _ Hrun1) as Hinv1.
  destruct (drained_all_reported urls _ s1 Hinv1 Hzero)
    as (_ & _ & done & Hdone & Hperm).
  assert (length (Wing.writes (take k tr)) = length urls) as Hbefore.
  { rewrite (Wing.inv_out _ _ _ Hinv1) in Hperm.
    apply Permutation_length in Hperm. rewrite !length_fmap in Hperm.
    rewrite Hperm, <- Hdone, length_fmap. reflexivity. }
  assert (length (Wing.writes tr) <= length urls) as Hall.
  { pose proof (f_equal length (Wing.inv_fifo _ _ _ Hinv)) as Hfifo.
    pose proof (Permutation_length (Wing.inv_reported _ _ _ Hinv)) as Hrep.
    rewrite length_app, !length_fmap in *. lia. }
  assert (Wing.writes tr
          = Wing.writes (take k tr) ++ Wing.writes (drop k tr)) as Hwrites.
  { rewrite <- (take_drop k tr) at 1. unfold Wing.writes. apply omap_app. }
  assert (Wing.writes (drop k tr) = []) as Hafter.
  { apply length_zero_iff_nil. rewrite Hwrites, length_app in Hall. lia. }
  rewrite (Wing.inv_out _ _ _ Hinv), Hwrites, Hafter, app_nil_r.
  repeat split. rewrite length_fmap. exact Hbefore.
Qed.

Lemma output_complete_at_queue_join_witness :
  exists tr s,
    Wing.run (Wing.initial Scenario.urls) Scenario.complete_run = Some (tr, s)
    /\ tr !! 19 = Some Wing.EvQueueJoined
    /\ Wing.st_out s = Wing.render <$> Wing.writes (take 19 tr)
    /\ Wing.writes (drop 19 tr) = []
    /\ length (Wing.st_out s) = length Scenario.urls.
Proof.
  eexists _, _. split; [vm_compute; reflexivity|]. split; [reflexivity|].
  eapply (output_complete_at_queue_join Scenario.urls Scenario.complete_run);
    [vm_compute; reflexivity|reflexivity].
Defined.

(** X11. A worker writes the line of a URL after taking it and before
    acknowledging it: along every run there are at least as many lines as
    acknowledgements and at most as many as URLs taken, and the output is
    the lines in the order in which the workers wrote them. *)
Theorem line_written_before_task_done (urls : list string)
    (sched : list Wing.action) (tr : list Wing.event) (s : Wing.state) :
  Wing.run (Wing.initial urls) sched = Some (tr, s) ->
  length (Wing.acks tr) <= length (Wing.writes tr)
  /\ length (Wing.writes tr) <= length (Wing.gets tr)
  /\ length (Wing.gets tr) <= length urls
  /\ Wing.st_out s = Wing.render <$> Wing.writes tr.
Proof.
  intros Hrun. pose proof (invariant_reachable _ _ _ _ Hrun) as Hinv.
  pose proof (owes_line_le_holds (Wing.st_threads s)) as Howes.
  pose proof (Wing.inv_acked _ _ _ Hinv) as Hack.
  pose proof (f_equal length (Wing.inv_fifo _ _ _ Hinv)) as Hfifo.
  pose proof (Permutation_length (Wing.inv_reported _ _ _ Hinv)) as Hrep.
  rewrite length_app, !length_fmap in *.
  repeat split; try lia. exact (Wing.inv_out _ _ _ Hinv).
Qed.

Lemma line_written_before_task_done_witness :
  exists tr s,
    Wing.run (Wing.initial Scenario.urls) Scenario.complete_run = Some (tr, s)
    /\ length (Wing.acks tr) <= length (Wing.writes tr)
    /\ Wing.st_out s = Wing.render <$> Wing.writes tr.
Proof.
  eexists _, _. split; [vm_compute; reflexivity|].
  edestruct (line_written_before_task_done Scenario.urls Scenario.complete_run)
    as (Hle & _ & _ & Hout); [vm_compute; reflexivity|].
  split; [exact Hle|exact Hout].
Defined.
